(** * zeek_halfduplex_analyzer: the analysis pipeline of [main], embedded

    The program reads a Zeek [conn.log], narrows it through a filtering
    funnel to the half-duplex TCP connections, and prints statistics about
    them.  This development embeds the pure content of
    [zeek_halfduplex_analyzer.py]: the Python string primitives it calls,
    the schema resolution, the funnel, the pair key, the shape of the
    NIC/process table and the self-join of the flow pairing.

    Conventions.
    - A Python [str] is a [string]; a character is its code point, so the
      model covers the code points 0..255 (the Latin-1 block, which
      contains the ASCII repertoire of the log format).
    - A data frame is the list of its rows, in row order.  A cell that
      pandas holds as NaN / NA (the token [-] of the log, by
      [na_values=['-']]) is [None].
    - A Python exception is the [Raise] case of [result].
    - The sections of [main] after the funnel add columns with
      [df.apply(..., axis=1)], which yields a column only on a frame with
      at least one row: on an empty frame they raise ValueError
      ([apply_rows]). *)

From Stdlib Require Import List String Ascii Bool Arith ZArith NArith QArith Lia.
From Stdlib Require Import Qabs.
From Stdlib Require Import DecimalString Permutation Sorted.
From Stdlib Require Decimal DecimalZ DecimalPos.
Import ListNotations.

Local Close Scope Q_scope.
Local Open Scope string_scope.
Local Open Scope list_scope.
Local Open Scope nat_scope.

(** ** Exceptions *)

Inductive PyExc : Type :=
| NameError
| KeyError
| TypeError
| AttributeError
| IndexError
| ValueError
| ZeroDivisionError
| OverflowError
| AssertionError.

Inductive result (A : Type) : Type :=
| Ok (a : A)
| Raise (e : PyExc).

Arguments Ok {A} a.
Arguments Raise {A} e.

Definition bind {A B : Type} (m : result A) (k : A -> result B) : result B :=
  match m with
  | Ok a => k a
  | Raise e => Raise e
  end.

Notation "x <- m ;; k" := (bind m (fun x => k))
  (at level 61, m at next level, right associativity).

(** A comprehension or [df.apply(f, axis=1)] whose body may raise: the first
    exception, in row order, aborts the whole traversal. *)
Fixpoint mapM {A B : Type} (f : A -> result B) (l : list A) : result (list B) :=
  match l with
  | [] => Ok []
  | a :: l' => b <- f a ;; bs <- mapM f l' ;; Ok (b :: bs)
  end.

(** [df[col] = df.apply(f, axis=1)]: the column is computed row by row.  On
    a frame without rows [apply] returns a frame instead of a column, and
    the assignment raises ValueError. *)
Definition apply_rows {A B : Type} (f : A -> result B) (df : list A)
  : result (list B) :=
  match df with
  | [] => Raise ValueError
  | _ :: _ => mapM f df
  end.

(** ** Python string primitives *)

Module PyStr.

Definition code (c : ascii) : N := N_of_ascii c.

Definition between (lo hi n : N) : bool := ((lo <=? n) && (n <=? hi))%N.

(** [Py_UNICODE_ISUPPER], [Py_UNICODE_ISLOWER] and [Py_UNICODE_ISTITLE] on
    the code points 0..255. *)
Definition ch_isupper (c : ascii) : bool :=
  between 65 90 (code c) || between 192 214 (code c)
  || between 216 222 (code c).

Definition ch_islower (c : ascii) : bool :=
  between 97 122 (code c) || (code c =? 170)%N || (code c =? 181)%N
  || (code c =? 186)%N || between 223 246 (code c)
  || between 248 255 (code c).

Definition ch_istitle (c : ascii) : bool := false.

(** [Py_UNICODE_ISSPACE] on the code points 0..255. *)
Definition ch_isspace (c : ascii) : bool :=
  between 9 13 (code c) || between 28 32 (code c)
  || (code c =? 133)%N || (code c =? 160)%N.

(** [str.isupper]: the scan of [unicode_isupper_impl].  A lowercase or
    titlecase character answers False at once; otherwise the answer is
    whether an uppercase character was seen. *)
Fixpoint isupper_scan (cased : bool) (s : string) : bool :=
  match s with
  | EmptyString => cased
  | String c s' =>
      if ch_islower c || ch_istitle c then false
      else isupper_scan (cased || ch_isupper c) s'
  end.

Definition isupper (s : string) : bool := isupper_scan false s.

(** [str.islower]: the scan of [unicode_islower_impl]. *)
Fixpoint islower_scan (cased : bool) (s : string) : bool :=
  match s with
  | EmptyString => cased
  | String c s' =>
      if ch_isupper c || ch_istitle c then false
      else islower_scan (cased || ch_islower c) s'
  end.

Definition islower (s : string) : bool := islower_scan false s.

(** Membership of a character in the [chars] argument of [lstrip]. *)
Fixpoint mem (c : ascii) (chars : string) : bool :=
  match chars with
  | EmptyString => false
  | String d chars' => Ascii.eqb c d || mem c chars'
  end.

(** [s.lstrip(chars)]: drops the longest prefix made of characters of
    [chars]. *)
Fixpoint lstrip (chars : string) (s : string) : string :=
  match s with
  | EmptyString => EmptyString
  | String c s' => if mem c chars then lstrip chars s' else s
  end.

(** [s.startswith(p)]. *)
Definition startswith (s p : string) : bool := String.prefix p s.

(** [s.split(sep)] for a one-character separator: every occurrence
    splits, so the result has one more field than [s] has separators. *)
Fixpoint split_on (sep : ascii) (s : string) : list string :=
  match s with
  | EmptyString => [EmptyString]
  | String c s' =>
      if Ascii.eqb c sep then EmptyString :: split_on sep s'
      else match split_on sep s' with
           | [] => [String c EmptyString]
           | w :: ws => String c w :: ws
           end
  end.

(** [s.split()]: fields are the maximal runs of non-whitespace
    characters; [cur] is the field being read, reversed. *)
Fixpoint split_ws_aux (cur : list ascii) (s : string) : list string :=
  match s with
  | EmptyString =>
      match cur with
      | [] => []
      | _ => [string_of_list_ascii (rev cur)]
      end
  | String c s' =>
      if ch_isspace c then
        match cur with
        | [] => split_ws_aux [] s'
        | _ => string_of_list_ascii (rev cur) :: split_ws_aux [] s'
        end
      else split_ws_aux (c :: cur) s'
  end.

Definition split (s : string) : list string := split_ws_aux [] s.

(** [str(n)] of an integer. *)
Definition str_of_int (n : Z) : string :=
  NilZero.string_of_int (Z.to_int n).

End PyStr.

(** ** The loaded table *)

(** One row of the data frame returned by [pd.read_table], restricted to
    [interesting_cols], with the dtypes that [type_mapping] gives the
    columns of a [conn.log]: addresses, protocol, history and peer are
    [object] cells holding a [str], ports are nullable [Int64], and the two
    locality flags are booleans read from [T]/[F]. *)
Record ConnRow : Type := mkRow {
  id_orig_h : option string;
  id_orig_p : option Z;
  id_resp_h : option string;
  id_resp_p : option Z;
  proto : option string;
  history : option string;
  local_orig : option bool;
  local_resp : option bool;
  peer : option string
}.

Definition DataFrame : Type := list ConnRow.

Definition set_history (r : ConnRow) (h : option string) : ConnRow :=
  mkRow (id_orig_h r) (id_orig_p r) (id_resp_h r) (id_resp_p r) (proto r) h
        (local_orig r) (local_resp r) (peer r).

Definition opt_str_eqb (o : option string) (s : string) : bool :=
  match o with
  | Some t => String.eqb t s
  | None => false
  end.

Definition opt_is_true (o : option bool) : bool :=
  match o with
  | Some b => b
  | None => false
  end.

(** ** The filtering funnel

    [df.drop(columns=...)] only forgets columns that are not read again, so
    the rows keep their fields here. *)

(** [df.loc[df['proto'] == 'tcp']] *)
Definition keep_tcp (df : DataFrame) : DataFrame :=
  filter (fun r => opt_str_eqb (proto r) "tcp") df.

(** [df.loc[(df['local_orig'] == True) & (df['local_resp'] == True)]] *)
Definition keep_local (df : DataFrame) : DataFrame :=
  filter (fun r => opt_is_true (local_orig r) && opt_is_true (local_resp r)) df.

(** [df['history'].str.lstrip('^')]; the [.str] accessor leaves NaN as NaN. *)
Definition strip_caret (h : option string) : option string :=
  option_map (PyStr.lstrip "^") h.

Definition strip_history (df : DataFrame) : DataFrame :=
  map (fun r => set_history r (strip_caret (history r))) df.

(** [df['history'].str.len() > 1]; the length of NaN is NaN, and
    [NaN > 1] is False. *)
Definition len_gt_1 (h : option string) : bool :=
  match h with
  | Some s => (1 <? String.length s)%nat
  | None => false
  end.

Definition keep_multichar (df : DataFrame) : DataFrame :=
  filter (fun r => len_gt_1 (history r)) df.

(** [df['history'].str.isupper()] and [.str.islower()], as row masks.  The
    masks are only taken after [keep_multichar], where no history is NaN
    (lemma [keep_multichar_history]); a NaN selects nothing. *)
Definition hist_isupper (r : ConnRow) : bool :=
  match history r with
  | Some s => PyStr.isupper s
  | None => false
  end.

Definition hist_islower (r : ConnRow) : bool :=
  match history r with
  | Some s => PyStr.islower s
  | None => false
  end.

(** [df.loc[(df['history'].str.isupper()) | (df['history'].str.islower())]] *)
Definition keep_halfduplex (df : DataFrame) : DataFrame :=
  filter (fun r => hist_isupper r || hist_islower r) df.

(** The counts that [main] prints in its summary, and the candidate set
    that the later sections read. *)
Record Funnel : Type := mkFunnel {
  total_lines : nat;
  tcp_lines : nat;
  analyzed_lines : nat;
  halfduplex_lines : nat;
  lowercase_lines : nat;
  uppercase_lines : nat;
  candidates : DataFrame
}.

(** [main], from [total_lines = df.shape[0]] to the [assert]. *)
Definition run_funnel (df0 : DataFrame) : result Funnel :=
  let total := List.length df0 in
  let df := keep_tcp df0 in
  let df := keep_local df in
  let tcp := List.length df in
  let df := strip_history df in
  let df := keep_multichar df in
  let analyzed := List.length df in
  let df := keep_halfduplex df in
  let halfduplex := List.length df in
  let lowercase := List.length (filter hist_islower df) in
  let uppercase := List.length (filter hist_isupper df) in
  if (halfduplex =? lowercase + uppercase)%nat
  then Ok (mkFunnel total tcp analyzed halfduplex lowercase uppercase df)
  else Raise AssertionError.

(** The rows that reach the end of the funnel. *)
Definition half_duplex_set (df0 : DataFrame) : DataFrame :=
  keep_halfduplex (keep_multichar (strip_history (keep_local (keep_tcp df0)))).

(** The spec's wording of stage 3 (for comparison with [strip_caret]):
    remove a single leading caret when there is one. *)
Definition strip_one_caret (s : string) : string :=
  match s with
  | String "^"%char s' => s'
  | _ => s
  end.

(** The number of carets that a string begins with, and a run of [n]
    carets. *)
Fixpoint leading_carets (s : string) : nat :=
  match s with
  | String "^"%char s' => S (leading_carets s')
  | _ => 0
  end.

Fixpoint carets (n : nat) : string :=
  match n with
  | O => EmptyString
  | S n' => String "^"%char (carets n')
  end.

(** The spec's wording of the stage-5 predicate: every character is an
    uppercase letter, or every character is a lowercase letter. *)
Fixpoint all_chars (p : ascii -> bool) (s : string) : bool :=
  match s with
  | EmptyString => true
  | String c s' => p c && all_chars p s'
  end.

Fixpoint any_char (p : ascii -> bool) (s : string) : bool :=
  match s with
  | EmptyString => false
  | String c s' => p c || any_char p s'
  end.

Definition pure_case (s : string) : bool :=
  all_chars PyStr.ch_isupper s || all_chars PyStr.ch_islower s.

Definition is_letter (c : ascii) : bool :=
  PyStr.ch_isupper c || PyStr.ch_islower c.

(** ** Record schema resolution *)

(** The pandas dtypes named by [type_mapping]. *)
Inductive Dtype : Type :=
| datetime64
| object
| bool_
| Int64
| float64.

Definition type_mapping : list (string * Dtype) :=
  [ ("time", datetime64);
    ("string", object);
    ("bool", bool_);
    ("addr", object);
    ("port", Int64);
    ("enum", object);
    ("interval", float64);
    ("count", Int64);
    ("set[string]", object) ].

(** A [dict] with [str] keys, in insertion order. *)
Definition Dict (V : Type) : Type := list (string * V).

(** [d[k]] *)
Fixpoint dict_get {V : Type} (d : Dict V) (k : string) : result V :=
  match d with
  | [] => Raise KeyError
  | (k', v) :: d' => if String.eqb k k' then Ok v else dict_get d' k
  end.

(** [d[k] = v]: an existing key keeps its place and takes the new value. *)
Fixpoint dict_set {V : Type} (d : Dict V) (k : string) (v : V) : Dict V :=
  match d with
  | [] => [(k, v)]
  | (k', v') :: d' =>
      if String.eqb k k' then (k', v) :: d' else (k', v') :: dict_set d' k v
  end.

(** [infile.readline()]: the next line, or the empty string at the end of
    the file. *)
Definition readline (rest : list string) : string :=
  match rest with
  | [] => EmptyString
  | l :: _ => l
  end.

(** The [for line in infile] loop of [main]: the first line that starts
    with [#fields] gives the names, the line after it the types; the first
    token of each is discarded ([[1:]]).  [None] when the loop ends without
    binding [col_names]. *)
Fixpoint find_fields (lines : list string) : option (list string * list string) :=
  match lines with
  | [] => None
  | line :: rest =>
      if negb (PyStr.startswith line "#fields") then find_fields rest
      else Some (tl (PyStr.split line), tl (PyStr.split (readline rest)))
  end.

(** The loop [for col, t in zip(col_names, col_types)] over the pairs that
    [zip] yields. *)
Fixpoint convert_pairs (d : Dict Dtype) (pairs : list (string * string))
  : result (Dict Dtype) :=
  match pairs with
  | [] => Ok d
  | (col, t) :: pairs' =>
      ty <- dict_get type_mapping t ;;
      convert_pairs (dict_set d col ty) pairs'
  end.

Definition convert_col_types (col_names col_types : list string)
  : result (Dict Dtype) :=
  convert_pairs [] (combine col_names col_types).

(** Schema resolution, from the opening of the file to the finished
    [converted_col_types]. *)
Definition resolve_schema (lines : list string) : result (Dict Dtype) :=
  match find_fields lines with
  | None => Raise NameError
  | Some (col_names, col_types) => convert_col_types col_names col_types
  end.

(** Whether a declared type is a key of [type_mapping]. *)
Definition known_type (t : string) : bool :=
  match dict_get type_mapping t with
  | Ok _ => true
  | Raise _ => false
  end.

(** ** Ratios *)

(** [numerator / denominator] on integers, in exact arithmetic: the
    quotient before Python rounds it to a float.  It is the reading used
    for the figures of the report; the float itself, with its rounding and
    its OverflowError, is [Float64.truediv] below. *)
Definition truediv (numerator denominator : Z) : result Q :=
  if (denominator =? 0)%Z then Raise ZeroDivisionError
  else Ok (inject_Z numerator / inject_Z denominator)%Q.

(** Truth value of an [int]. *)
Definition truthy (n : Z) : bool := negb (n =? 0)%Z.

Definition zero_division_ok (numerator denominator : Z) : result Q :=
  if truthy denominator then truediv numerator denominator else Ok 0%Q.

(** ** Ratios as Python computes them

    [int / int] in Python is the double nearest to the exact quotient
    (ties to even, with gradual underflow), and raises OverflowError when
    that double would be beyond the largest finite one. *)

Module Float64.

Local Open Scope Z_scope.

(** A finite double: [(-1)^neg * mant * 2^expo].  Division returns
    [0 <= mant < 2^53] and [-1074 <= expo <= 971]; a zero has [mant = 0]
    and keeps its sign. *)
Record t : Type := mk { neg : bool; mant : Z; expo : Z }.

(** [2^k] for [k >= 0] and 1 otherwise, so that [2^k] is
    [pow2 k / pow2 (- k)] for every integer [k]. *)
Definition pow2 (k : Z) : Z := 2 ^ Z.max k 0.

(** The integer nearest to [N / D], ties to even ([0 <= N], [0 < D]). *)
Definition rne_div (N D : Z) : Z :=
  let q := N / D in
  let r := N mod D in
  match Z.compare (2 * r) D with
  | Lt => q
  | Gt => q + 1
  | Eq => if Z.even q then q else q + 1
  end.

(** The integer [k] with [2^k <= N / D < 2^(k+1)] ([0 < N], [0 < D]). *)
Definition ilog2_ratio (N D : Z) : Z :=
  let k := Z.log2 N - Z.log2 D in
  if D * pow2 k <=? N * pow2 (- k) then k else k - 1.

(** The double nearest to [N / D], with the given sign: the quotient is
    scaled to 53 bits (fewer below [2^-1022]), rounded to an integer, and
    renormalised when the rounding carries. *)
Definition round (sign : bool) (N D : Z) : result t :=
  if N =? 0 then Ok (mk sign 0 (-1074)) else
  let e := Z.max (ilog2_ratio N D - 52) (-1074) in
  let m := rne_div (N * pow2 (- e)) (D * pow2 e) in
  let '(m, e) := if m =? 2 ^ 53 then (2 ^ 52, e + 1) else (m, e) in
  if 971 <? e then Raise OverflowError
  else if m =? 0 then Ok (mk sign 0 (-1074))
  else Ok (mk sign m e).

(** [numerator / denominator] on integers. *)
Definition truediv (numerator denominator : Z) : result t :=
  if denominator =? 0 then Raise ZeroDivisionError
  else round (xorb (numerator <? 0) (denominator <? 0))
             (Z.abs numerator) (Z.abs denominator).

(** What [zero_division_ok] returns: the [int] 0 or a [float]. *)
Inductive PyNum : Type :=
| PyInt (z : Z)
| PyFloat (f : t).

Definition zero_division_ok (numerator denominator : Z) : result PyNum :=
  if truthy denominator
  then f <- truediv numerator denominator ;; Ok (PyFloat f)
  else Ok (PyInt 0).



End Float64.

(** ** Rankings *)

(** [Series.value_counts()]: the number of rows per distinct non-null
    value, largest count first; among equal counts the value that appears
    first in the column comes first (the order that pandas gives, without
    promising it). *)
Section ValueCounts.

Context {K : Type} (eqb : K -> K -> bool).

Fixpoint bump (k : K) (acc : list (K * nat)) : list (K * nat) :=
  match acc with
  | [] => [(k, 1)]
  | (k', n) :: acc' =>
      if eqb k k' then (k', S n) :: acc' else (k', n) :: bump k acc'
  end.

Definition tally (col : list (option K)) : list (K * nat) :=
  fold_left (fun acc v => match v with
                          | Some k => bump k acc
                          | None => acc
                          end) col [].

Fixpoint insert_desc (e : K * nat) (l : list (K * nat)) : list (K * nat) :=
  match l with
  | [] => [e]
  | e' :: l' =>
      if snd e' <=? snd e then e :: l else e' :: insert_desc e l'
  end.

Definition value_counts (col : list (option K)) : list (K * nat) :=
  fold_right insert_desc [] (tally col).

End ValueCounts.

(** ** IP-address pairs *)

(** The lambda behind [df['ip_pair']].  A NaN address raises TypeError: in
    the comparison when only one side is NaN, in the concatenation when
    both are. *)
Definition ip_pair (r : ConnRow) : result string :=
  match id_orig_h r, id_resp_h r with
  | Some o, Some p =>
      Ok (if o <? p then o ++ "-" ++ p else p ++ "-" ++ o)%string
  | _, _ => Raise TypeError
  end.

(** [df['ip_pair'].value_counts()] *)
Definition pair_counts (df : DataFrame) : result (list (string * nat)) :=
  keys <- apply_rows ip_pair df ;;
  Ok (value_counts String.eqb (map Some keys)).

(** ** NIC / process cross-tabulation *)

(** [row['peer'].split('-')[i]]: a NaN peer has no [split]; a peer with too
    few hyphens has no field [i]. *)
Definition peer_field (i : nat) (r : ConnRow) : result string :=
  match peer r with
  | None => Raise AttributeError
  | Some p =>
      match nth_error (PyStr.split_on "-" p) i with
      | Some f => Ok f
      | None => Raise IndexError
      end
  end.

(** [pd.to_numeric] on the process tokens that the model covers: unsigned
    decimal numerals below [2^63], as in the worker names of a cluster
    ([int64_token] below).  On these pandas returns the integer.  Every
    other token is outside the model: pandas turns a blank or [nan] into
    NaN, reads signs and fractions, and refuses numerals from [2^64] on,
    none of which this function follows. *)
Fixpoint parse_digits (acc : Z) (s : string) : result Z :=
  match s with
  | EmptyString => Ok acc
  | String c s' =>
      if PyStr.between 48 57 (PyStr.code c)
      then parse_digits (10 * acc + (Z.of_N (PyStr.code c) - 48))%Z s'
      else Raise ValueError
  end.

Definition to_numeric (s : string) : result Z :=
  match s with
  | EmptyString => Raise ValueError
  | _ => parse_digits 0%Z s
  end.

(** A process token on which [to_numeric] is what [pd.to_numeric] does: a
    non-empty string of decimal digits whose value is below [2^63]. *)
Definition int64_token (s : string) : bool :=
  match to_numeric s with
  | Ok n => (n <? 2 ^ 63)%Z
  | Raise _ => false
  end.

(** Insertion sort, for the sorted labels that [groupby] produces. *)
Section Sort.

Context {A : Type} (leb : A -> A -> bool).

Fixpoint insert_sorted (x : A) (l : list A) : list A :=
  match l with
  | [] => [x]
  | y :: l' => if leb x y then x :: l else y :: insert_sorted x l'
  end.

Definition isort (l : list A) : list A := fold_right insert_sorted [] l.

End Sort.

(** Column labels of the table: one per process number, then [Total]. *)
Inductive ColLabel : Type :=
| Proc (p : Z)
| Total.

(** A two-dimensional table; a NaN cell is [None]. *)
Record Table : Type := mkTable {
  index : list string;
  columns : list ColLabel;
  values : list (list (option nat))
}.

(** [nics_df.shape] *)
Definition shape (t : Table) : nat * nat :=
  (List.length (index t), List.length (columns t)).

Definition key_eqb (k : string * Z) (n : string) (p : Z) : bool :=
  String.eqb (fst k) n && (snd k =? p)%Z.

(** The size of the group [(n, p)]; [unstack] leaves NaN where no row has
    that combination. *)
Definition group_cell (keys : list (string * Z)) (n : string) (p : Z)
  : option nat :=
  match List.length (filter (fun k => key_eqb k n p) keys) with
  | O => None
  | c => Some c
  end.

(** [df.groupby(['nic', 'process'])['history'].count().unstack()]: one row
    per distinct NIC, one column per distinct process, labels sorted.  (No
    history is NaN among the candidates, so [count] is the group size.) *)
Definition unstack_counts (keys : list (string * Z)) : Table :=
  let nics := isort String.leb (nodup string_dec (map fst keys)) in
  let procs := isort Z.leb (nodup Z.eq_dec (map snd keys)) in
  mkTable nics (map Proc procs)
          (map (fun n => map (fun p => group_cell keys n p) procs) nics).

(** [nics_df.sum(axis=1)] skips NaN. *)
Definition row_sum (row : list (option nat)) : nat :=
  fold_right (fun c acc => match c with
                           | Some n => n + acc
                           | None => acc
                           end) 0 row.

(** [nics_df['Total'] = nics_df.sum(axis=1)] *)
Definition add_total (t : Table) : Table :=
  mkTable (index t) (columns t ++ [Total])
          (map (fun row => row ++ [Some (row_sum row)]) (values t)).

(** The four "evenly spaced average" figures that [main] prints. *)
Record EvenSplit : Type := mkEvenSplit {
  avg_by_process : Q;
  avg_by_nic : Q;
  pct_by_process : Q;
  pct_by_nic : Q
}.

(** [main], from [df['nic'] = ...] to the last "Evenly spaced average"
    line.  [num_nics] and [num_procs] are bound from the shape before the
    table is transposed for display, so the transposition and the
    rendering, which are not embedded, do not reach the figures. *)
Definition cross_tabulate (df : DataFrame) (halfduplex_lines : nat)
  : result (Table * (nat * nat) * EvenSplit) :=
  nic <- apply_rows (peer_field 1) df ;;
  process <- apply_rows (peer_field 2) df ;;
  process <- mapM to_numeric process ;;
  let nics_df := unstack_counts (combine nic process) in
  let nics_df := add_total nics_df in
  let '(num_nics, num_procs) := shape nics_df in
  let hd := Z.of_nat halfduplex_lines in
  a_proc <- zero_division_ok hd (Z.of_nat (num_nics * num_procs)) ;;
  a_nic <- zero_division_ok hd (Z.of_nat num_nics) ;;
  p_proc <- zero_division_ok 1 (Z.of_nat (num_nics * num_procs)) ;;
  p_nic <- zero_division_ok 1 (Z.of_nat num_nics) ;;
  Ok (nics_df, (num_nics, num_procs), mkEvenSplit a_proc a_nic p_proc p_nic).

(** The denominators as the specification words them: the number of
    distinct NIC values and of distinct process values among the
    candidates. *)
Definition distinct_nics (nic : list string) : nat :=
  List.length (nodup string_dec nic).

Definition distinct_processes (process : list Z) : nat :=
  List.length (nodup Z.eq_dec process).

(** ** Flow pairing *)

(** [str(row['id.orig_p'])]: the decimal numeral, or the text of [pd.NA]. *)
Definition str_port (p : option Z) : string :=
  match p with
  | Some n => PyStr.str_of_int n
  | None => "<NA>"
  end.

(** [h + '/' + str(p) + '-' + h' + '/' + str(p')]; adding a NaN address to
    a [str] raises TypeError. *)
Definition join_id (h : option string) (p : option Z)
                   (h' : option string) (p' : option Z) : result string :=
  match h, h' with
  | Some a, Some a' =>
      Ok (a ++ "/" ++ str_port p ++ "-" ++ a' ++ "/" ++ str_port p')%string
  | _, _ => Raise TypeError
  end.

(** A candidate with the three identifier columns that [main] adds. *)
Record FlowRow : Type := mkFlowRow {
  row : ConnRow;
  conn_id : string;
  reverse_id : string;
  flow_id : string
}.

(** The three [df.apply] passes that add [conn_id], [reverse_id] and
    [flow_id].  Each pass raises exactly when some address is NaN, so the
    passes are taken together, row by row. *)
Definition add_ids (r : ConnRow) : result FlowRow :=
  c <- join_id (id_orig_h r) (id_orig_p r) (id_resp_h r) (id_resp_p r) ;;
  v <- join_id (id_resp_h r) (id_resp_p r) (id_orig_h r) (id_orig_p r) ;;
  Ok (mkFlowRow r c v (if (c <? v)%string then c else v)).

(** [pd.merge(left, right, left_on='conn_id', right_on='reverse_id')]: the
    rows of the inner join, one for every left row and every right row it
    matches.  They are listed here by left row; pandas lists the same rows
    grouped by join key, and nothing below depends on their order. *)
Definition merge (left right : list FlowRow) : list (FlowRow * FlowRow) :=
  flat_map (fun x =>
              map (pair x)
                  (filter (fun y => String.eqb (conn_id x) (reverse_id y)) right))
           left.

(** [merged_df[merged_df['conn_id_x'] == merged_df['flow_id_x']]] *)
Definition keep_canonical (m : list (FlowRow * FlowRow))
  : list (FlowRow * FlowRow) :=
  filter (fun xy => String.eqb (conn_id (fst xy)) (flow_id (fst xy))) m.


(** What the last section of [main] prints. *)
Record Pairing : Type := mkPairing {
  merged_df : list (FlowRow * FlowRow);
  paired_conns : nat;
  paired_fraction : Q;
  history_x : list (option string);
  paired_hist_types : list (string * nat)
}.

Definition pair_flows (df : DataFrame) (halfduplex_lines : nat)
  : result Pairing :=
  ids <- apply_rows add_ids df ;;
  let merged := keep_canonical (merge ids ids) in
  let conns := List.length merged * 2 in
  frac <- zero_division_ok (Z.of_nat conns) (Z.of_nat halfduplex_lines) ;;
  let hx := map (fun xy => history (row (fst xy))) merged in
  Ok (mkPairing merged conns frac hx (value_counts String.eqb hx)).

(** ** Sample rows *)

(** A local TCP connection between two hosts, seen by [worker-eth0-1], with
    the given history. *)
Definition local_tcp_row (h : option string) : ConnRow :=
  mkRow (Some "10.0.0.1") (Some 1111%Z) (Some "10.0.0.2") (Some 80%Z)
        (Some "tcp") h (Some true) (Some true) (Some "worker-eth0-1").

(** A TCP connection whose originator is not local. *)
Definition remote_tcp_row : ConnRow :=
  mkRow (Some "192.0.2.7") (Some 40000%Z) (Some "10.0.0.2") (Some 80%Z)
        (Some "tcp") (Some "ShADadfF") (Some false) (Some true)
        (Some "worker-eth0-1").

(** The same connection as [local_tcp_row], seen from the responder's side
    by another worker. *)
Definition reverse_tcp_row (h : option string) : ConnRow :=
  mkRow (Some "10.0.0.2") (Some 80%Z) (Some "10.0.0.1") (Some 1111%Z)
        (Some "tcp") h (Some true) (Some true) (Some "worker-eth1-2").

(** A connection from an address and port to the same address and port. *)
Definition self_tcp_row (h : option string) : ConnRow :=
  mkRow (Some "10.0.0.1") (Some 1111%Z) (Some "10.0.0.1") (Some 1111%Z)
        (Some "tcp") h (Some true) (Some true) (Some "worker-eth0-1").

(** The two legs with their identifier columns. *)
Definition forward_flow : FlowRow :=
  mkFlowRow (local_tcp_row (Some "SADF"))
            "10.0.0.1/1111-10.0.0.2/80" "10.0.0.2/80-10.0.0.1/1111"
            "10.0.0.1/1111-10.0.0.2/80".

Definition backward_flow : FlowRow :=
  mkFlowRow (reverse_tcp_row (Some "shadf"))
            "10.0.0.2/80-10.0.0.1/1111" "10.0.0.1/1111-10.0.0.2/80"
            "10.0.0.1/1111-10.0.0.2/80".

(** A header whose type line is one token short. *)
Definition short_types_header : list string :=
  [ "#path conn";
    "#fields id.orig_h id.orig_p proto";
    "#types addr port" ].

(** ** Reading the schema back *)

(** The declared type that the conversion loop leaves under a column name:
    the type paired with the last occurrence of the name. *)
Fixpoint last_type (pairs : list (string * string)) (col : string)
  : option string :=
  match pairs with
  | [] => None
  | (c, t) :: pairs' =>
      match last_type pairs' col with
      | Some t' => Some t'
      | None => if String.eqb col c then Some t else None
      end
  end.

(** No line of the file starts with [#fields]. *)
Definition no_fields_line (lines : list string) : bool :=
  forallb (fun line => negb (PyStr.startswith line "#fields")) lines.

(** ** Reading the table *)

(** The number of occurrences of a character in a string. *)
Fixpoint count_char (c : ascii) (s : string) : nat :=
  match s with
  | EmptyString => 0
  | String d s' => (if Ascii.eqb d c then 1 else 0) + count_char c s'
  end.

(** The last column of a table, which after [add_total] is [Total]. *)
Definition total_column (t : Table) : list (option nat) :=
  map (fun cells => last cells None) (values t).

(** The test [if num_nics < num_procs] that decides whether [main] prints
    the transposed table ([nics_df.T]). *)
Definition transposed_for_display (dims : nat * nat) : bool :=
  let '(num_nics, num_procs) := dims in num_nics <? num_procs.

(** ** Reading the pairing *)

(** Both addresses of a row are present (neither is NaN). *)
Definition has_addresses (r : ConnRow) : bool :=
  match id_orig_h r, id_resp_h r with
  | Some _, Some _ => true
  | _, _ => false
  end.

(** A row with both addresses replaced by null. *)
Definition clear_addresses (r : ConnRow) : ConnRow :=
  mkRow None (id_orig_p r) None (id_resp_p r) (proto r) (history r)
        (local_orig r) (local_resp r) (peer r).

(** An address without a slash, as every IPv4 and IPv6 address is. *)
Definition slash_free (h : option string) : bool :=
  match h with
  | Some a => negb (PyStr.mem "/" a)
  | None => false
  end.

(** A port that is null or not negative. *)
Definition port_ok (p : option Z) : bool :=
  match p with
  | Some n => (0 <=? n)%Z
  | None => true
  end.

(** A row whose identifiers can be read back: slash-free addresses and
    ports that are null or not negative. *)
Definition plain_endpoints (r : ConnRow) : bool :=
  slash_free (id_orig_h r) && slash_free (id_resp_h r)
  && port_ok (id_orig_p r) && port_ok (id_resp_p r).

(** The number of rows of a column that hold the value [k]. *)
Definition occurrences (k : string) (col : list (option string)) : nat :=
  List.length (filter (fun v => match v with
                                | Some k' => String.eqb k k'
                                | None => false
                                end) col).

(** The number of rows of a column that are not null. *)
Definition non_null (col : list (option string)) : nat :=
  List.length (filter (fun v => match v with
                                | Some _ => true
                                | None => false
                                end) col).

(** The count recorded for a value in a tally, 0 when it has no entry. *)
Definition count_of (k : string) (acc : list (string * nat)) : nat :=
  match find (fun e => String.eqb k (fst e)) acc with
  | Some e => snd e
  | None => 0
  end.

(** [hist_types = df['history'].value_counts()], the table behind "Top ten
    half-duplex history types", and the rows that [head(n=10)] prints. *)
Definition hist_types (df : DataFrame) : list (string * nat) :=
  value_counts String.eqb (map history df).

Definition top_ten {K : Type} (ranking : list (K * nat)) : list (K * nat) :=
  firstn 10 ranking.

(** The two addresses that the "Top IP address pairs" lines print for a
    pair key: [index.split('-')[0]] and [index.split('-')[1]]. *)
Definition printed_pair (key : string) : result (string * string) :=
  match nth_error (PyStr.split_on "-" key) 0,
        nth_error (PyStr.split_on "-" key) 1 with
  | Some a, Some b => Ok (a, b)
  | _, _ => Raise IndexError
  end.

(** ** The summary lines *)



(** * Properties *)

(** ** Case classification of strings *)

Lemma isupper_scan_spec (s : string) (cased : bool) :
  PyStr.isupper_scan cased s =
  all_chars (fun c => negb (PyStr.ch_islower c || PyStr.ch_istitle c)) s
  && (cased || any_char PyStr.ch_isupper s).
Proof.
  revert cased; induction s as [|c s IH]; intros cased; simpl.
  - now rewrite orb_false_r.
  - destruct (PyStr.ch_islower c || PyStr.ch_istitle c); simpl; [reflexivity|].
    rewrite IH. now rewrite orb_assoc.
Qed.

Lemma islower_scan_spec (s : string) (cased : bool) :
  PyStr.islower_scan cased s =
  all_chars (fun c => negb (PyStr.ch_isupper c || PyStr.ch_istitle c)) s
  && (cased || any_char PyStr.ch_islower s).
Proof.
  revert cased; induction s as [|c s IH]; intros cased; simpl.
  - now rewrite orb_false_r.
  - destruct (PyStr.ch_isupper c || PyStr.ch_istitle c); simpl; [reflexivity|].
    rewrite IH. now rewrite orb_assoc.
Qed.

Lemma all_none_any (p q : ascii -> bool) (s : string) :
  (forall c, p c = true -> q c = false) ->
  all_chars q s = true -> any_char p s = false.
Proof.
  intros Hpq; induction s as [|c s IH]; simpl; [reflexivity|].
  intros H; apply andb_true_iff in H as [Hc Hs].
  rewrite (IH Hs), orb_false_r.
  destruct (p c) eqn:E; [|reflexivity].
  rewrite (Hpq c E) in Hc; discriminate.
Qed.

(** No string is both [isupper] and [islower]. *)
Lemma isupper_islower_excl (s : string) :
  PyStr.isupper s && PyStr.islower s = false.
Proof.
  unfold PyStr.isupper, PyStr.islower.
  rewrite isupper_scan_spec, islower_scan_spec; simpl.
  destruct (all_chars (fun c => negb (PyStr.ch_isupper c || PyStr.ch_istitle c)) s)
    eqn:Hall.
  - assert (Hnone : any_char PyStr.ch_isupper s = false).
    { apply (all_none_any PyStr.ch_isupper
               (fun c => negb (PyStr.ch_isupper c || PyStr.ch_istitle c)));
        [|exact Hall].
      intros c Hc; now rewrite Hc. }
    rewrite Hnone. now rewrite andb_false_r.
  - simpl. now rewrite andb_false_r.
Qed.

Lemma hist_excl (r : ConnRow) : hist_isupper r && hist_islower r = false.
Proof.
  unfold hist_isupper, hist_islower.
  destruct (history r); [apply isupper_islower_excl|reflexivity].
Qed.

(** On the code points 0..255 no character is both upper and lower case. *)
Lemma ch_upper_not_lower (c : ascii) :
  PyStr.ch_isupper c = true -> PyStr.ch_islower c = false.
Proof.
  destruct c as [[] [] [] [] [] [] [] []]; vm_compute; intros H;
    first [reflexivity | discriminate H].
Qed.

(** ** Counting rows under filters *)

Lemma filter_split_length {A : Type} (p q : A -> bool) (l : list A) :
  (forall x, p x && q x = false) ->
  List.length (filter (fun x => p x || q x) l)
  = List.length (filter q l) + List.length (filter p l).
Proof.
  intros Hex; induction l as [|x l IH]; simpl; [reflexivity|].
  specialize (Hex x).
  destruct (p x), (q x); simpl in *; try discriminate; lia.
Qed.

Lemma filter_filter {A : Type} (p q : A -> bool) (l : list A) :
  filter q (filter p l) = filter (fun x => p x && q x) l.
Proof.
  induction l as [|x l IH]; simpl; [reflexivity|].
  destruct (p x); simpl; [destruct (q x)|]; now rewrite ?IH.
Qed.

Lemma filter_nil {A : Type} (p : A -> bool) (l : list A) :
  (forall x, In x l -> p x = false) -> filter p l = [].
Proof.
  induction l as [|x l IH]; simpl; intros H; [reflexivity|].
  rewrite (H x (or_introl eq_refl)), IH; auto.
Qed.

Lemma filter_le {A : Type} (p : A -> bool) (l : list A) :
  List.length (filter p l) <= List.length l.
Proof.
  induction l as [|x l IH]; simpl; [lia|]. destruct (p x); simpl; lia.
Qed.

(** ** The funnel *)

(** After stage 4 every history is a string of more than one character. *)
Lemma keep_multichar_history (df : DataFrame) (r : ConnRow) :
  In r (keep_multichar df) ->
  exists s, history r = Some s /\ 1 < String.length s.
Proof.
  unfold keep_multichar; intros H; apply filter_In in H as [_ H].
  unfold len_gt_1 in H; destruct (history r) as [s|]; [|discriminate].
  exists s; split; [reflexivity|]. now apply Nat.ltb_lt.
Qed.

Lemma half_duplex_split (df : DataFrame) :
  List.length (keep_halfduplex df)
  = List.length (filter hist_islower (keep_halfduplex df))
    + List.length (filter hist_isupper (keep_halfduplex df)).
Proof.
  unfold keep_halfduplex.
  rewrite !filter_filter.
  rewrite (filter_ext (fun x => (hist_isupper x || hist_islower x) && hist_islower x)
                      hist_islower).
  2:{ intros x; destruct (hist_isupper x), (hist_islower x); reflexivity. }
  rewrite (filter_ext (fun x => (hist_isupper x || hist_islower x) && hist_isupper x)
                      hist_isupper).
  2:{ intros x; destruct (hist_isupper x), (hist_islower x); reflexivity. }
  apply filter_split_length, hist_excl.
Qed.

(** The assertion of [main] never fires: the funnel always returns. *)
Lemma run_funnel_ok (df0 : DataFrame) :
  run_funnel df0 =
  Ok (mkFunnel (List.length df0)
               (List.length (keep_local (keep_tcp df0)))
               (List.length (keep_multichar (strip_history (keep_local (keep_tcp df0)))))
               (List.length (half_duplex_set df0))
               (List.length (filter hist_islower (half_duplex_set df0)))
               (List.length (filter hist_isupper (half_duplex_set df0)))
               (half_duplex_set df0)).
Proof.
  unfold run_funnel, half_duplex_set.
  rewrite (proj2 (Nat.eqb_eq _ _) (half_duplex_split _)). reflexivity.
Qed.

Lemma all_negb_any (p : ascii -> bool) (s : string) :
  all_chars (fun c => negb (p c)) s = negb (any_char p s).
Proof.
  induction s as [|c s IH]; simpl; [reflexivity|].
  rewrite IH. now destruct (p c).
Qed.

(** [str.isupper] and [str.islower] by what they look for: no character of
    the other case, and at least one character of their own. *)
Lemma isupper_spec (s : string) :
  PyStr.isupper s
  = negb (any_char PyStr.ch_islower s) && any_char PyStr.ch_isupper s.
Proof.
  unfold PyStr.isupper. rewrite isupper_scan_spec; simpl.
  rewrite <- all_negb_any. f_equal.
  induction s as [|c s IH]; simpl; [reflexivity|].
  rewrite IH. unfold PyStr.ch_istitle. now rewrite orb_false_r.
Qed.

Lemma islower_spec (s : string) :
  PyStr.islower s
  = negb (any_char PyStr.ch_isupper s) && any_char PyStr.ch_islower s.
Proof.
  unfold PyStr.islower. rewrite islower_scan_spec; simpl.
  rewrite <- all_negb_any. f_equal.
  induction s as [|c s IH]; simpl; [reflexivity|].
  rewrite IH. unfold PyStr.ch_istitle. now rewrite orb_false_r.
Qed.

Lemma ch_lower_not_upper (c : ascii) :
  PyStr.ch_islower c = true -> PyStr.ch_isupper c = false.
Proof.
  intros H. destruct (PyStr.ch_isupper c) eqn:E; [|reflexivity].
  rewrite (ch_upper_not_lower c E) in H; discriminate.
Qed.

(** A non-empty string of one case passes the matching Python test. *)
Lemma all_upper_isupper (s : string) :
  s <> EmptyString -> all_chars PyStr.ch_isupper s = true ->
  PyStr.isupper s = true.
Proof.
  intros Hne Hall. rewrite isupper_spec.
  rewrite (all_none_any PyStr.ch_islower PyStr.ch_isupper s
             ch_lower_not_upper Hall); simpl.
  destruct s as [|c s]; [congruence|]. simpl in *.
  apply andb_true_iff in Hall as [Hc _]. now rewrite Hc.
Qed.

Lemma all_lower_islower (s : string) :
  s <> EmptyString -> all_chars PyStr.ch_islower s = true ->
  PyStr.islower s = true.
Proof.
  intros Hne Hall. rewrite islower_spec.
  rewrite (all_none_any PyStr.ch_isupper PyStr.ch_islower s
             ch_upper_not_lower Hall); simpl.
  destruct s as [|c s]; [congruence|]. simpl in *.
  apply andb_true_iff in Hall as [Hc _]. now rewrite Hc.
Qed.

(** On strings of letters the two Python tests say no more than "all of one
    case". *)
Lemma letters_no_lower_all_upper (s : string) :
  all_chars is_letter s = true -> any_char PyStr.ch_islower s = false ->
  all_chars PyStr.ch_isupper s = true.
Proof.
  induction s as [|c s IH]; simpl; [reflexivity|].
  intros Hl Hn. apply andb_true_iff in Hl as [Hc Hs].
  apply orb_false_iff in Hn as [Hnc Hns].
  unfold is_letter in Hc. rewrite Hnc, orb_false_r in Hc.
  rewrite Hc; simpl; auto.
Qed.

Lemma letters_no_upper_all_lower (s : string) :
  all_chars is_letter s = true -> any_char PyStr.ch_isupper s = false ->
  all_chars PyStr.ch_islower s = true.
Proof.
  induction s as [|c s IH]; simpl; [reflexivity|].
  intros Hl Hn. apply andb_true_iff in Hl as [Hc Hs].
  apply orb_false_iff in Hn as [Hnc Hns].
  unfold is_letter in Hc. rewrite Hnc in Hc; simpl in Hc.
  rewrite Hc; simpl; auto.
Qed.

Lemma letters_pure_case (s : string) :
  s <> EmptyString -> all_chars is_letter s = true ->
  PyStr.isupper s || PyStr.islower s = pure_case s.
Proof.
  intros Hne Hl. unfold pure_case.
  destruct (all_chars PyStr.ch_isupper s) eqn:Hu.
  - now rewrite (all_upper_isupper s Hne Hu).
  - destruct (all_chars PyStr.ch_islower s) eqn:Hlo.
    + rewrite (all_lower_islower s Hne Hlo). now rewrite orb_true_r.
    + simpl. apply orb_false_iff; split.
      * rewrite isupper_spec.
        destruct (any_char PyStr.ch_islower s) eqn:E; [reflexivity|].
        rewrite (letters_no_lower_all_upper s Hl E) in Hu; discriminate.
      * rewrite islower_spec.
        destruct (any_char PyStr.ch_isupper s) eqn:E; [reflexivity|].
        rewrite (letters_no_upper_all_lower s Hl E) in Hlo; discriminate.
Qed.

(** ** Stripping carets *)

Lemma lstrip_caret_iter (s : string) :
  PyStr.lstrip "^" s = Nat.iter (leading_carets s) strip_one_caret s.
Proof.
  induction s as [|c s IH]; [reflexivity|].
  destruct (Ascii.eqb c "^") eqn:E.
  - apply Ascii.eqb_eq in E; subst c.
    change (PyStr.lstrip "^" (String "^" s)) with (PyStr.lstrip "^" s).
    change (leading_carets (String "^" s)) with (S (leading_carets s)).
    rewrite Nat.iter_succ_r. exact IH.
  - assert (Hl : leading_carets (String c s) = 0).
    { destruct c as [[] [] [] [] [] [] [] []]; try reflexivity; discriminate E. }
    rewrite Hl. simpl. now rewrite E.
Qed.

Lemma lstrip_caret_decompose (s : string) :
  s = (carets (leading_carets s) ++ PyStr.lstrip "^" s)%string.
Proof.
  induction s as [|c s IH]; [reflexivity|].
  destruct (Ascii.eqb c "^") eqn:E.
  - apply Ascii.eqb_eq in E; subst c.
    change (PyStr.lstrip "^" (String "^" s)) with (PyStr.lstrip "^" s).
    change (leading_carets (String "^" s)) with (S (leading_carets s)).
    simpl. now rewrite <- IH.
  - assert (Hl : leading_carets (String c s) = 0).
    { destruct c as [[] [] [] [] [] [] [] []]; try reflexivity; discriminate E. }
    rewrite Hl. simpl. now rewrite E.
Qed.

Lemma lstrip_caret_no_caret (s : string) :
  PyStr.startswith (PyStr.lstrip "^" s) "^" = false.
Proof.
  induction s as [|c s IH]; [reflexivity|].
  destruct (Ascii.eqb c "^") eqn:E.
  - apply Ascii.eqb_eq in E; subst c. exact IH.
  - assert (Hs : PyStr.lstrip "^" (String c s) = String c s).
    { simpl. now rewrite E. }
    rewrite Hs.
    destruct c as [[] [] [] [] [] [] [] []]; try reflexivity; discriminate E.
Qed.

Lemma lstrip_caret_single (s : string) :
  String.eqb (PyStr.lstrip "^" s) (strip_one_caret s)
  = (leading_carets s <=? 1).
Proof.
  destruct s as [|c s]; [reflexivity|].
  destruct (Ascii.eqb c "^") eqn:E.
  - apply Ascii.eqb_eq in E; subst c.
    change (PyStr.lstrip "^" (String "^" s)) with (PyStr.lstrip "^" s).
    change (strip_one_caret (String "^" s)) with s.
    change (leading_carets (String "^" s)) with (S (leading_carets s)).
    destruct s as [|d s]; [reflexivity|].
    destruct (Ascii.eqb d "^") eqn:E'.
    + apply Ascii.eqb_eq in E'; subst d.
      change (leading_carets (String "^" s)) with (S (leading_carets s)).
      change (S (S (leading_carets s)) <=? 1) with false.
      apply String.eqb_neq. intros Heq.
      pose proof (lstrip_caret_no_caret (String "^" (String "^" s))) as Hn.
      change (PyStr.lstrip "^" (String "^" (String "^" s)))
        with (PyStr.lstrip "^" (String "^" s)) in Hn.
      rewrite Heq in Hn. unfold PyStr.startswith in Hn.
      destruct s; simpl in Hn; discriminate Hn.
    + assert (Hl : leading_carets (String d s) = 0).
      { destruct d as [[] [] [] [] [] [] [] []]; try reflexivity; discriminate E'. }
      rewrite Hl. simpl. rewrite E'. apply String.eqb_refl.
  - assert (Hl : leading_carets (String c s) = 0).
    { destruct c as [[] [] [] [] [] [] [] []]; try reflexivity; discriminate E. }
    assert (Hs : strip_one_caret (String c s) = String c s).
    { destruct c as [[] [] [] [] [] [] [] []]; try reflexivity; discriminate E. }
    rewrite Hl, Hs. simpl. rewrite E. apply String.eqb_refl.
Qed.

(** ** The funnel counts *)

(** C1.  The funnel always completes: the assertion of [main] holds on every
    input table.  The number of half-duplex candidates is the number of
    candidates with an all-lowercase history plus the number with an
    all-uppercase history, both counted on the candidate set; no candidate
    passes both tests (no overlap) and none fails both (no gap). *)
Theorem C1_partition_invariant (df0 : DataFrame) :
  exists f : Funnel,
    run_funnel df0 = Ok f
    /\ halfduplex_lines f = List.length (candidates f)
    /\ lowercase_lines f = List.length (filter hist_islower (candidates f))
    /\ uppercase_lines f = List.length (filter hist_isupper (candidates f))
    /\ halfduplex_lines f = lowercase_lines f + uppercase_lines f
    /\ filter (fun r => hist_islower r && hist_isupper r) (candidates f) = []
    /\ filter (fun r => negb (hist_islower r || hist_isupper r)) (candidates f) = [].
Proof.
  eexists; split; [apply run_funnel_ok|]; simpl.
  repeat split.
  - unfold half_duplex_set. apply half_duplex_split.
  - apply filter_nil. intros r _. rewrite andb_comm. apply hist_excl.
  - apply filter_nil. intros r Hr.
    unfold half_duplex_set, keep_halfduplex in Hr.
    apply filter_In in Hr as [_ Hr].
    rewrite orb_comm, Hr. reflexivity.
Qed.

(** C2, as the code has it.  [tcp_lines] is taken after the locality filter:
    it is the number of rows whose protocol is [tcp] and whose two locality
    flags are both true, which is at most the number of [tcp] rows. *)
Theorem C2_tcp_lines_counts_local_tcp (df0 : DataFrame) :
  exists f : Funnel,
    run_funnel df0 = Ok f
    /\ tcp_lines f
       = List.length
           (filter (fun r => opt_str_eqb (proto r) "tcp"
                             && (opt_is_true (local_orig r)
                                 && opt_is_true (local_resp r))) df0)
    /\ tcp_lines f = List.length (keep_local (keep_tcp df0))
    /\ tcp_lines f <= List.length (keep_tcp df0).
Proof.
  eexists; split; [apply run_funnel_ok|]; simpl.
  repeat split.
  - unfold keep_local, keep_tcp. now rewrite filter_filter.
  - unfold keep_local. apply filter_le.
Qed.

(** C2 as stated fails: one [tcp] row with a non-local originator survives
    stage 1, yet [tcp_lines] is 0. *)
Lemma C2_counterexample :
  ~ (forall (df0 : DataFrame) (f : Funnel),
        run_funnel df0 = Ok f -> tcp_lines f = List.length (keep_tcp df0)).
Proof.
  intros H.
  specialize (H [remote_tcp_row] _ (run_funnel_ok [remote_tcp_row])).
  vm_compute in H. discriminate H.
Qed.

(** C3, as the code has it.  A row with history [s] survives stage 5 exactly
    when [s] has no lowercase character and at least one uppercase letter,
    or no uppercase character and at least one lowercase letter; characters
    without case do not count either way.  When [s] is a non-empty string
    of letters this is the same as: all uppercase, or all lowercase. *)
Theorem C3_stage5_case_tests (df : DataFrame) (r : ConnRow) (s : string) :
  history r = Some s ->
  (In r (keep_halfduplex df) <->
   In r df
   /\ ((any_char PyStr.ch_islower s = false /\ any_char PyStr.ch_isupper s = true)
       \/ (any_char PyStr.ch_isupper s = false /\ any_char PyStr.ch_islower s = true)))
  /\ (all_chars is_letter s = true -> s <> EmptyString ->
      (In r (keep_halfduplex df) <-> In r df /\ pure_case s = true)).
Proof.
  intros Hs.
  assert (Hkeep : In r (keep_halfduplex df) <->
                  In r df /\ PyStr.isupper s || PyStr.islower s = true).
  { unfold keep_halfduplex. rewrite filter_In.
    unfold hist_isupper, hist_islower. rewrite Hs. reflexivity. }
  split.
  - rewrite Hkeep, isupper_spec, islower_spec.
    destruct (any_char PyStr.ch_islower s), (any_char PyStr.ch_isupper s);
      simpl; intuition discriminate.
  - intros Hl Hne. rewrite Hkeep, (letters_pure_case s Hne Hl). reflexivity.
Qed.

Lemma C3_stage5_case_tests_witness :
  (In (local_tcp_row (Some "SADF")) (keep_halfduplex [local_tcp_row (Some "SADF")]) <->
   In (local_tcp_row (Some "SADF")) [local_tcp_row (Some "SADF")]
   /\ ((any_char PyStr.ch_islower "SADF" = false
        /\ any_char PyStr.ch_isupper "SADF" = true)
       \/ (any_char PyStr.ch_isupper "SADF" = false
           /\ any_char PyStr.ch_islower "SADF" = true)))
  /\ (all_chars is_letter "SADF" = true -> "SADF" <> EmptyString ->
      (In (local_tcp_row (Some "SADF"))
          (keep_halfduplex [local_tcp_row (Some "SADF")]) <->
       In (local_tcp_row (Some "SADF")) [local_tcp_row (Some "SADF")]
       /\ pure_case "SADF" = true)).
Proof.
  apply (C3_stage5_case_tests [local_tcp_row (Some "SADF")]
           (local_tcp_row (Some "SADF")) "SADF").
  reflexivity.
Defined.

(** C3 as stated fails: the history [A1] has a character that is not a
    letter, and its row survives stage 5. *)
Lemma C3_counterexample :
  ~ (forall (df : DataFrame) (r : ConnRow) (s : string),
        history r = Some s -> 1 < String.length s ->
        (In r (keep_halfduplex df) <-> In r df /\ pure_case s = true)).
Proof.
  intros H.
  destruct (H [local_tcp_row (Some "A1")] (local_tcp_row (Some "A1")) "A1"
              eq_refl (Nat.lt_succ_diag_r 1)) as [Hto _].
  assert (Hin : In (local_tcp_row (Some "A1"))
                   (keep_halfduplex [local_tcp_row (Some "A1")])).
  { left; reflexivity. }
  destruct (Hto Hin) as [_ Hp]. vm_compute in Hp. discriminate Hp.
Qed.

(** C4, as the code has it.  Stage 3 removes every leading caret of a
    non-null history: the output is the input without its run of leading
    carets, so it does not begin with a caret.  It is the input with a
    single caret removed exactly when the input begins with at most one
    caret.  A null history stays null. *)
Theorem C4_strip_every_leading_caret (s : string) :
  strip_caret None = None
  /\ strip_caret (Some s) = Some (Nat.iter (leading_carets s) strip_one_caret s)
  /\ Some s = option_map (String.append (carets (leading_carets s)))
                         (strip_caret (Some s))
  /\ option_map (fun t => PyStr.startswith t "^") (strip_caret (Some s))
     = Some false
  /\ match strip_caret (Some s) with
     | Some t => String.eqb t (strip_one_caret s)
     | None => false
     end = (leading_carets s <=? 1).
Proof.
  unfold strip_caret; simpl. repeat split.
  - now rewrite lstrip_caret_iter.
  - now rewrite <- lstrip_caret_decompose.
  - now rewrite lstrip_caret_no_caret.
  - apply lstrip_caret_single.
Qed.

(** C4 as stated fails: of two leading carets the code removes both. *)
Lemma C4_counterexample :
  ~ (forall h : option string,
        strip_caret h = option_map strip_one_caret h).
Proof.
  intros H. specialize (H (Some "^^Sh")). vm_compute in H. discriminate H.
Qed.

(** ** Ratios *)

Section Float64Facts.

Import Float64.
Local Open Scope Z_scope.
















End Float64Facts.

(** ** Schema resolution *)

Lemma combine_snd_firstn {A B : Type} (a : list A) (b : list B) :
  map snd (combine a b) = firstn (Nat.min (List.length a) (List.length b)) b.
Proof.
  revert b; induction a as [|x a IH]; intros [|y b]; simpl; try reflexivity.
  now rewrite IH.
Qed.

Lemma combine_firstn_min {A B : Type} (a : list A) (b : list B) :
  combine a b
  = combine (firstn (Nat.min (List.length a) (List.length b)) a)
            (firstn (Nat.min (List.length a) (List.length b)) b).
Proof.
  revert b; induction a as [|x a IH]; intros [|y b]; simpl; try reflexivity.
  now rewrite <- IH.
Qed.

(** The conversion loop fails exactly on a paired type that is not in the
    table. *)
Lemma convert_pairs_ok (pairs : list (string * string)) (d : Dict Dtype) :
  (exists d', convert_pairs d pairs = Ok d')
  <-> forallb known_type (map snd pairs) = true.
Proof.
  revert d; induction pairs as [|[col t] pairs IH]; intros d.
  - simpl. split; [reflexivity|]. intros _; now exists d.
  - change (convert_pairs d ((col, t) :: pairs))
      with (ty <- dict_get type_mapping t ;;
            convert_pairs (dict_set d col ty) pairs).
    change (forallb known_type (map snd ((col, t) :: pairs)))
      with (known_type t && forallb known_type (map snd pairs)).
    unfold known_type at 1.
    destruct (dict_get type_mapping t) as [ty|e]; unfold bind.
    + rewrite andb_true_l. apply IH.
    + rewrite andb_false_l.
      split; [intros [d' H]; discriminate H | intros H; discriminate H].
Qed.

(** C6, as the code has it.  The names and types are paired by [zip]: the
    result on a header is the result on its two token lists cut to the
    shorter length, so surplus tokens of the longer line are dropped
    unread.  Resolution succeeds exactly when every paired type is in the
    type table, whether or not the two lines have as many tokens. *)
Theorem C6_schema_pairs_common_prefix
        (lines names types : list string) :
  find_fields lines = Some (names, types) ->
  resolve_schema lines
  = convert_col_types
      (firstn (Nat.min (List.length names) (List.length types)) names)
      (firstn (Nat.min (List.length names) (List.length types)) types)
  /\ ((exists d, resolve_schema lines = Ok d)
      <-> forallb known_type
            (firstn (Nat.min (List.length names) (List.length types)) types)
          = true).
Proof.
  intros Hf. unfold resolve_schema; rewrite Hf. unfold convert_col_types.
  split.
  - now rewrite <- combine_firstn_min.
  - rewrite convert_pairs_ok. now rewrite combine_snd_firstn.
Qed.

Lemma C6_schema_pairs_common_prefix_witness :
  resolve_schema short_types_header
  = convert_col_types
      (firstn (Nat.min (List.length ["id.orig_h"; "id.orig_p"; "proto"])
                       (List.length ["addr"; "port"]))
              ["id.orig_h"; "id.orig_p"; "proto"])
      (firstn (Nat.min (List.length ["id.orig_h"; "id.orig_p"; "proto"])
                       (List.length ["addr"; "port"]))
              ["addr"; "port"])
  /\ ((exists d, resolve_schema short_types_header = Ok d)
      <-> forallb known_type
            (firstn (Nat.min (List.length ["id.orig_h"; "id.orig_p"; "proto"])
                             (List.length ["addr"; "port"]))
                    ["addr"; "port"])
          = true).
Proof.
  apply (C6_schema_pairs_common_prefix short_types_header
           ["id.orig_h"; "id.orig_p"; "proto"] ["addr"; "port"]).
  reflexivity.
Defined.

(** C6 as stated fails: three names against two types resolve without an
    error, to the schema of the first two columns. *)
Lemma C6_counterexample :
  ~ (forall lines names types : list string,
        find_fields lines = Some (names, types) ->
        List.length names <> List.length types ->
        exists e, resolve_schema lines = Raise e).
Proof.
  intros H.
  destruct (H short_types_header
              ["id.orig_h"; "id.orig_p"; "proto"] ["addr"; "port"]
              eq_refl) as [e He].
  - simpl; lia.
  - vm_compute in He. discriminate He.
Qed.

(** ** IP-address pairs *)

Lemma ltb_asym (a b : string) :
  (a <? b)%string = true -> (b <? a)%string = false.
Proof.
  unfold String.ltb. rewrite (String.compare_antisym a b).
  destruct (String.compare b a); simpl; intros H;
    first [discriminate H | reflexivity].
Qed.

Lemma ltb_total (a b : string) :
  (a <? b)%string = false -> (b <? a)%string = false -> a = b.
Proof.
  unfold String.ltb. rewrite (String.compare_antisym a b).
  destruct (String.compare b a) eqn:E; simpl; intros H1 H2;
    try discriminate.
  symmetry. now apply String.compare_eq_iff.
Qed.

Lemma ltb_leb (a b : string) :
  (a <? b)%string = true -> (a <=? b)%string = true.
Proof.
  unfold String.ltb, String.leb. destruct (String.compare a b);
    intros H; first [discriminate H | reflexivity].
Qed.

Lemma not_ltb_leb (a b : string) :
  (a <? b)%string = false -> (b <=? a)%string = true.
Proof.
  unfold String.ltb, String.leb. rewrite (String.compare_antisym a b).
  destruct (String.compare b a); simpl; intros H;
    first [discriminate H | reflexivity].
Qed.

Lemma ip_pair_swap (a b : string) :
  (if (a <? b)%string then a ++ "-" ++ b else b ++ "-" ++ a)%string
  = (if (b <? a)%string then b ++ "-" ++ a else a ++ "-" ++ b)%string.
Proof.
  destruct (a <? b)%string eqn:E1.
  - now rewrite (ltb_asym a b E1).
  - destruct (b <? a)%string eqn:E2; [reflexivity|].
    now rewrite (ltb_total a b E1 E2).
Qed.

(** C7.  A record and the record of the opposite direction (origin and
    responder address exchanged) get the same pair key, or both raise when
    an address is null; the key lists the lexicographically smaller address
    first; and the two records fall into one ranking entry, of count 2. *)
Theorem C7_ip_pair_order_independent (r r' : ConnRow) :
  id_orig_h r' = id_resp_h r ->
  id_resp_h r' = id_orig_h r ->
  ip_pair r' = ip_pair r
  /\ (forall a b, id_orig_h r = Some a -> id_resp_h r = Some b ->
      exists lo hi,
        ip_pair r = Ok (lo ++ "-" ++ hi)%string
        /\ (lo <=? hi)%string = true
        /\ ((lo = a /\ hi = b) \/ (lo = b /\ hi = a)))
  /\ pair_counts [r; r'] = (k <- ip_pair r ;; Ok [(k, 2)]).
Proof.
  intros Ho Hr.
  assert (Heq : ip_pair r' = ip_pair r).
  { unfold ip_pair. rewrite Ho, Hr.
    destruct (id_orig_h r) as [a|], (id_resp_h r) as [b|]; try reflexivity.
    f_equal. apply ip_pair_swap. }
  split; [exact Heq|]. split.
  - intros a b Ha Hb. unfold ip_pair. rewrite Ha, Hb.
    destruct (a <? b)%string eqn:E.
    + exists a, b. repeat split; auto using ltb_leb.
    + exists b, a. repeat split; auto using not_ltb_leb.
  - unfold pair_counts; simpl. rewrite Heq.
    destruct (ip_pair r) as [k|e]; simpl; [|reflexivity].
    unfold value_counts, tally; simpl. now rewrite String.eqb_refl.
Qed.

Lemma C7_ip_pair_order_independent_witness :
  ip_pair (mkRow (Some "10.0.0.2") (Some 80%Z) (Some "10.0.0.1") (Some 1111%Z)
                 (Some "tcp") (Some "shadf") (Some true) (Some true)
                 (Some "worker-eth1-2"))
  = ip_pair (local_tcp_row (Some "SADF"))
  /\ ip_pair (local_tcp_row (Some "SADF")) = Ok "10.0.0.1-10.0.0.2".
Proof.
  split; [|reflexivity].
  apply (C7_ip_pair_order_independent
           (local_tcp_row (Some "SADF"))
           (mkRow (Some "10.0.0.2") (Some 80%Z) (Some "10.0.0.1") (Some 1111%Z)
                  (Some "tcp") (Some "shadf") (Some true) (Some true)
                  (Some "worker-eth1-2"))); reflexivity.
Defined.

(** ** Traversals that may raise *)

Lemma mapM_length {A B : Type} (f : A -> result B) (l : list A) (l' : list B) :
  mapM f l = Ok l' -> List.length l' = List.length l.
Proof.
  revert l'; induction l as [|a l IH]; intros l'; simpl.
  - intros H; injection H as <-; reflexivity.
  - destruct (f a) as [b|e]; simpl; [|discriminate].
    destruct (mapM f l) as [bs|e]; simpl; [|discriminate].
    intros H; injection H as <-; simpl. now rewrite (IH bs).
Qed.

Lemma apply_rows_nonempty {A B : Type} (f : A -> result B) (df : list A) :
  df <> [] -> apply_rows f df = mapM f df.
Proof. destruct df; [congruence|reflexivity]. Qed.

Lemma apply_rows_ok {A B : Type} (f : A -> result B) (df : list A) (l : list B) :
  apply_rows f df = Ok l -> df <> [] /\ mapM f df = Ok l.
Proof. destruct df; [discriminate|]. intros H; split; [discriminate|exact H]. Qed.


Lemma mapM_In {A B : Type} (f : A -> result B) (l : list A) (l' : list B) (y : B) :
  mapM f l = Ok l' -> In y l' -> exists x, In x l /\ f x = Ok y.
Proof.
  revert l'; induction l as [|a l IH]; intros l'; simpl.
  - intros H; injection H as <-; intros [].
  - destruct (f a) as [b|e] eqn:Ea; simpl; [|discriminate].
    destruct (mapM f l) as [bs|e]; simpl; [|discriminate].
    intros H; injection H as <-. intros [<-|Hin].
    + exists a; auto.
    + destruct (IH bs eq_refl Hin) as [x [Hx Hfx]]. exists x; auto.
Qed.


Lemma zero_division_ok_returns (n d : Z) :
  exists q, zero_division_ok n d = Ok q.
Proof.
  unfold zero_division_ok, truthy, truediv.
  destruct (d =? 0)%Z; simpl; eauto.
Qed.

(** ** The shape of the NIC / process table *)

Lemma insert_sorted_length {A : Type} (leb : A -> A -> bool) (x : A) (l : list A) :
  List.length (insert_sorted leb x l) = S (List.length l).
Proof.
  induction l as [|y l IH]; simpl; [reflexivity|].
  destruct (leb x y); simpl; [reflexivity|]. now rewrite IH.
Qed.

Lemma isort_length {A : Type} (leb : A -> A -> bool) (l : list A) :
  List.length (isort leb l) = List.length l.
Proof.
  induction l as [|x l IH]; simpl; [reflexivity|].
  now rewrite insert_sorted_length, IH.
Qed.

Lemma combine_fst {A B : Type} (a : list A) (b : list B) :
  List.length a = List.length b -> map fst (combine a b) = a.
Proof.
  revert b; induction a as [|x a IH]; intros [|y b]; simpl;
    try reflexivity; try discriminate.
  intros H; injection H as H. now rewrite IH.
Qed.

Lemma combine_snd {A B : Type} (a : list A) (b : list B) :
  List.length a = List.length b -> map snd (combine a b) = b.
Proof.
  revert b; induction a as [|x a IH]; intros [|y b]; simpl;
    try reflexivity; try discriminate.
  intros H; injection H as H. now rewrite IH.
Qed.

(** The table has one row per distinct NIC and one column per distinct
    process; with [Total] appended, its second dimension is one more than
    the number of distinct processes. *)
Lemma add_total_shape (nic : list string) (process : list Z) :
  List.length nic = List.length process ->
  shape (add_total (unstack_counts (combine nic process)))
  = (distinct_nics nic, S (distinct_processes process)).
Proof.
  intros Hlen. unfold shape, add_total, unstack_counts; simpl.
  rewrite length_app, length_map, !isort_length; simpl.
  rewrite (combine_fst nic process Hlen), (combine_snd nic process Hlen).
  unfold distinct_nics, distinct_processes. f_equal. lia.
Qed.

(** The figures of [cross_tabulate] on every table whose peers decompose:
    the per-process average divides by the NIC count times one more than
    the process count. *)
Lemma cross_tabulate_figures (df : DataFrame) (hd : nat)
      (nic tok : list string) (process : list Z) :
  df <> [] ->
  mapM (peer_field 1) df = Ok nic ->
  mapM (peer_field 2) df = Ok tok ->
  mapM to_numeric tok = Ok process ->
  exists t es,
    cross_tabulate df hd
    = Ok (t, (distinct_nics nic, S (distinct_processes process)), es)
    /\ zero_division_ok (Z.of_nat hd)
         (Z.of_nat (distinct_nics nic * S (distinct_processes process)))
       = Ok (avg_by_process es)
    /\ zero_division_ok (Z.of_nat hd) (Z.of_nat (distinct_nics nic))
       = Ok (avg_by_nic es).
Proof.
  intros Hne Hn Ht Hp. unfold cross_tabulate.
  rewrite !(apply_rows_nonempty _ df Hne).
  rewrite Hn; cbn [bind]. rewrite Ht; cbn [bind]. rewrite Hp; cbn [bind].
  assert (Hlen : List.length nic = List.length process).
  { rewrite (mapM_length _ _ _ Hn), (mapM_length _ _ _ Hp).
    now rewrite (mapM_length _ _ _ Ht). }
  destruct (zero_division_ok_returns (Z.of_nat hd)
              (Z.of_nat (distinct_nics nic * S (distinct_processes process))))
    as [q1 H1].
  destruct (zero_division_ok_returns (Z.of_nat hd)
              (Z.of_nat (distinct_nics nic))) as [q2 H2].
  destruct (zero_division_ok_returns 1
              (Z.of_nat (distinct_nics nic * S (distinct_processes process))))
    as [q3 H3].
  destruct (zero_division_ok_returns 1 (Z.of_nat (distinct_nics nic)))
    as [q4 H4].
  cbv zeta. rewrite (add_total_shape nic process Hlen).
  rewrite H1, H2, H3, H4; cbn [bind].
  eexists; eexists; split; [reflexivity|]. simpl; auto.
Qed.

(** C9.  One candidate, seen by [worker-eth0-1]: one distinct NIC and one
    distinct process, so both even-split averages of the claim are 1 / 1.
    The code measures the table after the [Total] column is added, reads 2
    as the process count, and prints a per-process average of 1 / 2 (and
    50%); the per-NIC average is 1 / 1 as claimed. *)
Theorem C9_even_split_counts_total_column :
  run_funnel [local_tcp_row (Some "SADF")]
  = Ok (mkFunnel 1 1 1 1 0 1 [local_tcp_row (Some "SADF")])
  /\ mapM (peer_field 1) [local_tcp_row (Some "SADF")] = Ok ["eth0"]
  /\ mapM (peer_field 2) [local_tcp_row (Some "SADF")] = Ok ["1"]
  /\ distinct_nics ["eth0"] = 1
  /\ distinct_processes [1%Z] = 1
  /\ cross_tabulate [local_tcp_row (Some "SADF")] 1
     = Ok (mkTable ["eth0"] [Proc 1; Total] [[Some 1; Some 1]],
           (1, 2),
           mkEvenSplit (1 # 2) (1 # 1) (1 # 2) (1 # 1))
  /\ zero_division_ok 1 (Z.of_nat (1 * 1)) = Ok (1 # 1)%Q
  /\ Qeq_bool (1 # 2) (1 # 1) = false.
Proof.
  repeat split; reflexivity.
Qed.

(** ** Flow pairing *)

Lemma ltb_irrefl (a : string) : (a <? a)%string = false.
Proof.
  destruct (a <? a)%string eqn:E; [|reflexivity].
  now rewrite (ltb_asym a a E) in E.
Qed.

(** What [add_ids] puts in the three identifier columns. *)
Lemma add_ids_spec (r : ConnRow) (x : FlowRow) :
  add_ids r = Ok x ->
  row x = r
  /\ join_id (id_orig_h r) (id_orig_p r) (id_resp_h r) (id_resp_p r)
     = Ok (conn_id x)
  /\ join_id (id_resp_h r) (id_resp_p r) (id_orig_h r) (id_orig_p r)
     = Ok (reverse_id x)
  /\ flow_id x
     = if (conn_id x <? reverse_id x)%string then conn_id x else reverse_id x.
Proof.
  unfold add_ids.
  destruct (join_id (id_orig_h r) (id_orig_p r) (id_resp_h r) (id_resp_p r))
    as [c|e]; cbn [bind]; [|discriminate].
  destruct (join_id (id_resp_h r) (id_resp_p r) (id_orig_h r) (id_orig_p r))
    as [v|e]; cbn [bind]; [|discriminate].
  intros H; injection H as <-. simpl. auto.
Qed.

(** A row is its own canonical leg unless its reverse identifier sorts
    strictly first. *)
Lemma canonical_test (x : FlowRow) :
  flow_id x
  = (if (conn_id x <? reverse_id x)%string then conn_id x else reverse_id x) ->
  String.eqb (conn_id x) (flow_id x) = negb (reverse_id x <? conn_id x)%string.
Proof.
  intros ->. destruct (conn_id x <? reverse_id x)%string eqn:E.
  - now rewrite String.eqb_refl, (ltb_asym _ _ E).
  - destruct (reverse_id x <? conn_id x)%string eqn:E'; simpl.
    + apply String.eqb_neq. intros Heq. rewrite Heq, ltb_irrefl in E'.
      discriminate E'.
    + rewrite (ltb_total _ _ E E'). apply String.eqb_refl.
Qed.



Lemma In_merge (left right : list FlowRow) (x y : FlowRow) :
  In (x, y) (merge left right)
  <-> In x left /\ In y right /\ conn_id x = reverse_id y.
Proof.
  unfold merge. rewrite in_flat_map. split.
  - intros [x' [Hx' Hin]]. apply in_map_iff in Hin as [y' [Heq Hy']].
    injection Heq as <- <-. apply filter_In in Hy' as [Hy' Hm].
    apply String.eqb_eq in Hm. auto.
  - intros [Hx [Hy Hm]]. exists x; split; [exact Hx|].
    apply in_map. apply filter_In; split; [exact Hy|].
    now apply String.eqb_eq.
Qed.

(** *** Lists with distinguished positions *)





(** *** One mirror pair *)

Lemma flows_of_ids (df : DataFrame) (ids : list FlowRow) (x : FlowRow) :
  mapM add_ids df = Ok ids -> In x ids ->
  In (row x) df
  /\ flow_id x
     = if (conn_id x <? reverse_id x)%string then conn_id x else reverse_id x.
Proof.
  intros Hm Hx. destruct (mapM_In _ _ _ _ Hm Hx) as [r [Hr Hadd]].
  destruct (add_ids_spec r x Hadd) as [Hrow [_ [_ Hflow]]].
  rewrite Hrow. auto.
Qed.


(** Every candidate of the funnel has a history. *)
Lemma candidate_history (df0 : DataFrame) (r : ConnRow) :
  In r (half_duplex_set df0) -> exists h, history r = Some h.
Proof.
  unfold half_duplex_set, keep_halfduplex. intros H.
  apply filter_In in H as [_ H].
  unfold hist_isupper, hist_islower in H.
  destruct (history r) as [h|]; [now exists h | discriminate H].
Qed.



(** *** A record that mirrors itself *)



(** * Further properties of the pipeline *)

(** ** The funnel, stage by stage *)


Lemma funnel_counts_le (df0 : DataFrame) (f : Funnel) :
  run_funnel df0 = Ok f ->
  tcp_lines f <= total_lines f
  /\ analyzed_lines f <= tcp_lines f
  /\ halfduplex_lines f <= analyzed_lines f
  /\ lowercase_lines f <= halfduplex_lines f
  /\ uppercase_lines f <= halfduplex_lines f.
Proof.
  intros Hrun. rewrite run_funnel_ok in Hrun. injection Hrun as <-. simpl.
  assert (Hstrip : forall df, List.length (strip_history df) = List.length df).
  { intros df. unfold strip_history. apply length_map. }
  repeat split.
  - unfold keep_local, keep_tcp.
    etransitivity; [apply filter_le|apply filter_le].
  - unfold keep_multichar. etransitivity; [apply filter_le|].
    now rewrite Hstrip.
  - unfold half_duplex_set, keep_halfduplex. apply filter_le.
  - apply filter_le.
  - apply filter_le.
Qed.

(** Each count of the summary is at most the one before it. *)
Theorem funnel_counts_decrease (df0 : DataFrame) :
  exists f : Funnel,
    run_funnel df0 = Ok f
    /\ total_lines f = List.length df0
    /\ tcp_lines f <= total_lines f
    /\ analyzed_lines f <= tcp_lines f
    /\ halfduplex_lines f <= analyzed_lines f
    /\ lowercase_lines f <= halfduplex_lines f
    /\ uppercase_lines f <= halfduplex_lines f.
Proof.
  eexists; split; [apply run_funnel_ok|].
  split; [reflexivity|].
  apply (funnel_counts_le df0). apply run_funnel_ok.
Qed.

(** A caret has no case, so stripping the leading carets leaves both case
    tests as they were. *)
Lemma any_char_lstrip_caret (p : ascii -> bool) (s : string) :
  p "^"%char = false ->
  any_char p (PyStr.lstrip "^" s) = any_char p s.
Proof.
  intros Hp. induction s as [|c s IH]; [reflexivity|].
  destruct (Ascii.eqb c "^") eqn:E.
  - apply Ascii.eqb_eq in E; subst c.
    change (PyStr.lstrip "^" (String "^" s)) with (PyStr.lstrip "^" s).
    simpl. now rewrite Hp, IH.
  - assert (Hs : PyStr.lstrip "^" (String c s) = String c s).
    { simpl. now rewrite E. }
    now rewrite Hs.
Qed.

Lemma lstrip_caret_length (s : string) :
  String.length (PyStr.lstrip "^" s) = String.length s - leading_carets s.
Proof.
  induction s as [|c s IH]; [reflexivity|].
  destruct (Ascii.eqb c "^") eqn:E.
  - apply Ascii.eqb_eq in E; subst c.
    change (PyStr.lstrip "^" (String "^" s)) with (PyStr.lstrip "^" s).
    change (leading_carets (String "^" s)) with (S (leading_carets s)).
    simpl. exact IH.
  - assert (Hl : leading_carets (String c s) = 0).
    { destruct c as [[] [] [] [] [] [] [] []]; try reflexivity; discriminate E. }
    rewrite Hl, Nat.sub_0_r. simpl. now rewrite E.
Qed.

Lemma lstrip_caret_case (s : string) :
  PyStr.isupper (PyStr.lstrip "^" s) = PyStr.isupper s
  /\ PyStr.islower (PyStr.lstrip "^" s) = PyStr.islower s.
Proof.
  split.
  - rewrite !isupper_spec. now rewrite !any_char_lstrip_caret.
  - rewrite !islower_spec. now rewrite !any_char_lstrip_caret.
Qed.

(** Stage 4 measures the history after stage 3: a history is analyzed when
    more than one character follows its leading carets, so [^S] (two
    characters in the log) is not.  The case tests of stage 5 give the same
    answer on the stripped history as on the logged one. *)
Theorem stripped_history_tests (s : string) :
  len_gt_1 (strip_caret (Some s))
  = (1 <? String.length s - leading_carets s)
  /\ PyStr.isupper (PyStr.lstrip "^" s) = PyStr.isupper s
  /\ PyStr.islower (PyStr.lstrip "^" s) = PyStr.islower s.
Proof.
  repeat split.
  - unfold strip_caret, len_gt_1; simpl. now rewrite lstrip_caret_length.
  - apply lstrip_caret_case.
  - apply lstrip_caret_case.
Qed.

(** The candidate set, row by row: a row is a candidate exactly when it is
    a row of the input with its history stripped, whose protocol is [tcp],
    whose two locality flags are true, and whose history has more than one
    character after its leading carets and passes [isupper] or [islower]. *)
Theorem candidates_characterised (df0 : DataFrame) (f : Funnel) (r : ConnRow) :
  run_funnel df0 = Ok f ->
  (In r (candidates f) <->
   exists (r0 : ConnRow) (s : string),
     In r0 df0
     /\ r = set_history r0 (Some (PyStr.lstrip "^" s))
     /\ proto r0 = Some "tcp"
     /\ local_orig r0 = Some true
     /\ local_resp r0 = Some true
     /\ history r0 = Some s
     /\ 1 < String.length s - leading_carets s
     /\ PyStr.isupper s || PyStr.islower s = true).
Proof.
  intros Hrun. rewrite run_funnel_ok in Hrun. injection Hrun as <-.
  cbn [candidates].
  unfold half_duplex_set, keep_halfduplex, keep_multichar, strip_history,
    keep_local, keep_tcp.
  rewrite !filter_In, in_map_iff.
  split.
  - intros [[[r0 [Hr Hin]] Hlen] Hcase].
    rewrite !filter_In in Hin. destruct Hin as [[Hin Htcp] Hloc].
    apply andb_true_iff in Hloc as [Hlo Hlr].
    subst r. unfold hist_isupper, hist_islower in Hcase. simpl in Hlen, Hcase.
    destruct (history r0) as [s|] eqn:Hs; [|discriminate Hlen].
    exists r0, s. simpl in *.
    destruct (lstrip_caret_case s) as [Hu Hl].
    rewrite Hu, Hl in Hcase. rewrite lstrip_caret_length in Hlen.
    apply Nat.ltb_lt in Hlen.
    unfold opt_str_eqb in Htcp. destruct (proto r0) as [t|]; [|discriminate].
    apply String.eqb_eq in Htcp; subst t.
    unfold opt_is_true in Hlo, Hlr.
    destruct (local_orig r0) as [[]|]; try discriminate.
    destruct (local_resp r0) as [[]|]; try discriminate.
    repeat split; auto.
  - intros [r0 [s [Hin [Hr [Htcp [Hlo [Hlr [Hs [Hlen Hcase]]]]]]]]].
    destruct (lstrip_caret_case s) as [Hu Hl].
    subst r. unfold hist_isupper, hist_islower. simpl.
    rewrite Hu, Hl, lstrip_caret_length.
    repeat split; auto.
    + exists r0. rewrite Hs. split; [reflexivity|].
      rewrite !filter_In. rewrite Htcp, Hlo, Hlr. auto.
    + now apply Nat.ltb_lt.
Qed.

Lemma candidates_characterised_witness :
  In (local_tcp_row (Some "SADF"))
     (candidates (mkFunnel 2 1 1 1 0 1 [local_tcp_row (Some "SADF")])) <->
  exists (r0 : ConnRow) (s : string),
    In r0 [remote_tcp_row; local_tcp_row (Some "^SADF")]
    /\ local_tcp_row (Some "SADF") = set_history r0 (Some (PyStr.lstrip "^" s))
    /\ proto r0 = Some "tcp"
    /\ local_orig r0 = Some true
    /\ local_resp r0 = Some true
    /\ history r0 = Some s
    /\ 1 < String.length s - leading_carets s
    /\ PyStr.isupper s || PyStr.islower s = true.
Proof.
  apply (candidates_characterised
           [remote_tcp_row; local_tcp_row (Some "^SADF")]).
  reflexivity.
Defined.

(** ** The fractions of the summary *)




(** ** Schema resolution: errors and lookups *)

Lemma dict_get_set_same {V : Type} (d : Dict V) (k : string) (v : V) :
  dict_get (dict_set d k v) k = Ok v.
Proof.
  induction d as [|[k' v'] d IH]; simpl.
  - now rewrite String.eqb_refl.
  - destruct (String.eqb k k') eqn:E; simpl; rewrite E; [reflexivity|exact IH].
Qed.

Lemma dict_get_set_other {V : Type} (d : Dict V) (k k' : string) (v : V) :
  k' <> k -> dict_get (dict_set d k v) k' = dict_get d k'.
Proof.
  intros Hne. induction d as [|[k0 v0] d IH]; simpl.
  - apply String.eqb_neq in Hne. now rewrite Hne.
  - destruct (String.eqb k k0) eqn:E; simpl.
    + apply String.eqb_eq in E; subst k0.
      apply String.eqb_neq in Hne. now rewrite Hne.
    + destruct (String.eqb k' k0); [reflexivity|exact IH].
Qed.

Lemma dict_get_raises {V : Type} (d : Dict V) (k : string) (e : PyExc) :
  dict_get d k = Raise e -> e = KeyError.
Proof.
  induction d as [|[k' v'] d IH]; simpl.
  - intros H; now injection H.
  - destruct (String.eqb k k'); [discriminate|exact IH].
Qed.

Lemma convert_pairs_step (d : Dict Dtype) (col t : string)
      (pairs : list (string * string)) :
  convert_pairs d ((col, t) :: pairs)
  = (ty <- dict_get type_mapping t ;; convert_pairs (dict_set d col ty) pairs).
Proof. reflexivity. Qed.

Lemma convert_pairs_raises (pairs : list (string * string)) (d : Dict Dtype)
      (e : PyExc) :
  convert_pairs d pairs = Raise e -> e = KeyError.
Proof.
  revert d; induction pairs as [|[col t] pairs IH]; intros d.
  - discriminate.
  - rewrite convert_pairs_step.
    destruct (dict_get type_mapping t) as [ty|e'] eqn:E; unfold bind.
    + apply IH.
    + intros H; injection H as <-. apply (dict_get_raises _ _ _ E).
Qed.

Lemma convert_pairs_get (pairs : list (string * string)) (d d' : Dict Dtype)
      (col : string) :
  convert_pairs d pairs = Ok d' ->
  dict_get d' col
  = match last_type pairs col with
    | Some t => dict_get type_mapping t
    | None => dict_get d col
    end.
Proof.
  revert d; induction pairs as [|[c t] pairs IH]; intros d.
  - intros H; injection H as <-. reflexivity.
  - rewrite convert_pairs_step.
    destruct (dict_get type_mapping t) as [ty|e'] eqn:E; unfold bind;
      [|discriminate].
    intros H. rewrite (IH _ H). cbn [last_type].
    destruct (last_type pairs col); [reflexivity|].
    destruct (String.eqb col c) eqn:Ec.
    + apply String.eqb_eq in Ec; subst c.
      now rewrite dict_get_set_same.
    + apply String.eqb_neq in Ec. now apply dict_get_set_other.
Qed.

Lemma find_fields_none (lines : list string) :
  find_fields lines = None <-> no_fields_line lines = true.
Proof.
  unfold no_fields_line. induction lines as [|line rest IH]; simpl.
  - split; reflexivity.
  - destruct (negb (PyStr.startswith line "#fields")); simpl.
    + exact IH.
    + split; discriminate.
Qed.

(** Schema resolution raises NameError exactly when no line of the file
    starts with [#fields] (the loop ends with [col_names] unbound); its
    only other failure is the KeyError of a declared type that is not in
    [type_mapping]. *)
Theorem resolve_schema_errors (lines : list string) :
  (resolve_schema lines = Raise NameError <-> no_fields_line lines = true)
  /\ (forall e, resolve_schema lines = Raise e ->
                e = NameError \/ e = KeyError).
Proof.
  unfold resolve_schema.
  destruct (find_fields lines) as [[names types]|] eqn:Hf.
  - assert (Hno : no_fields_line lines <> true).
    { intros H. apply find_fields_none in H. congruence. }
    split.
    + split; [|intros H; contradiction].
      intros H. apply convert_pairs_raises in H. discriminate H.
    + intros e H. right. apply (convert_pairs_raises _ _ _ H).
  - split.
    + split; [intros _; now apply find_fields_none | reflexivity].
    + intros e H; injection H as <-. now left.
Qed.

(** The resolved schema, read back: a column name maps to the pandas type
    of the declared type paired with its last occurrence in the name line,
    and a name that [zip] did not pair is not a key. *)
Theorem resolve_schema_lookup
        (lines names types : list string) (d : Dict Dtype) (col : string) :
  find_fields lines = Some (names, types) ->
  resolve_schema lines = Ok d ->
  dict_get d col
  = match last_type (combine names types) col with
    | Some t => dict_get type_mapping t
    | None => Raise KeyError
    end.
Proof.
  intros Hf. unfold resolve_schema; rewrite Hf. unfold convert_col_types.
  intros H. now rewrite (convert_pairs_get _ _ _ col H).
Qed.

Lemma resolve_schema_lookup_witness :
  dict_get [("id.orig_h", object); ("id.orig_p", Int64)] "id.orig_p"
  = match last_type (combine ["id.orig_h"; "id.orig_p"; "proto"]
                             ["addr"; "port"]) "id.orig_p" with
    | Some t => dict_get type_mapping t
    | None => Raise KeyError
    end.
Proof.
  apply (resolve_schema_lookup short_types_header
           ["id.orig_h"; "id.orig_p"; "proto"] ["addr"; "port"]);
    reflexivity.
Defined.

Lemma find_fields_first (pre rest : list string) (line : string) :
  no_fields_line pre = true ->
  PyStr.startswith line "#fields" = true ->
  find_fields (pre ++ line :: rest)
  = Some (tl (PyStr.split line), tl (PyStr.split (readline rest))).
Proof.
  unfold no_fields_line. intros Hpre Hline.
  induction pre as [|l pre IH]; simpl.
  - now rewrite Hline.
  - simpl in Hpre. apply andb_true_iff in Hpre as [Hl Hpre].
    rewrite Hl. now apply IH.
Qed.

(** Only the first [#fields] line and the line right after it are read:
    whatever follows does not change the schema.  The following line is
    taken as the type line without a look at its marker, and when the
    [#fields] line is the last line of the file there are no types to
    pair, so resolution succeeds with an empty schema. *)
Theorem resolve_schema_first_fields_line
        (pre rest : list string) (line next : string) :
  no_fields_line pre = true ->
  PyStr.startswith line "#fields" = true ->
  resolve_schema (pre ++ line :: next :: rest)
  = convert_col_types (tl (PyStr.split line)) (tl (PyStr.split next))
  /\ resolve_schema (pre ++ [line]) = Ok [].
Proof.
  intros Hpre Hline. unfold resolve_schema.
  rewrite !(find_fields_first pre _ line Hpre Hline). split.
  - reflexivity.
  - unfold convert_col_types. simpl.
    now destruct (tl (PyStr.split line)).
Qed.

Lemma resolve_schema_first_fields_line_witness :
  resolve_schema (["#path conn"]
                  ++ "#fields id.orig_h proto" :: "#types addr enum"
                  :: ["#fields x"; "#types bogus"])
  = convert_col_types (tl (PyStr.split "#fields id.orig_h proto"))
                      (tl (PyStr.split "#types addr enum"))
  /\ resolve_schema (["#path conn"] ++ ["#fields id.orig_h proto"]) = Ok [].
Proof.
  apply (resolve_schema_first_fields_line ["#path conn"]
           ["#fields x"; "#types bogus"]); reflexivity.
Defined.

(** ** The peer field *)

Lemma split_on_cons (sep : ascii) (s : string) :
  exists w ws, PyStr.split_on sep s = w :: ws.
Proof.
  destruct s as [|c s]; simpl; [eauto|].
  destruct (Ascii.eqb c sep); [eauto|].
  destruct (PyStr.split_on sep s); eauto.
Qed.

Lemma split_on_app (sep : ascii) (a r : string) :
  PyStr.mem sep a = false ->
  PyStr.split_on sep (a ++ String sep r) = a :: PyStr.split_on sep r.
Proof.
  induction a as [|c a IH]; simpl.
  - intros _. now rewrite Ascii.eqb_refl.
  - intros H. apply orb_false_iff in H as [Hc Ha].
    rewrite Ascii.eqb_sym in Hc. rewrite Hc, (IH Ha). reflexivity.
Qed.

Lemma split_on_none (sep : ascii) (a : string) :
  PyStr.mem sep a = false -> PyStr.split_on sep a = [a].
Proof.
  induction a as [|c a IH]; simpl; [reflexivity|].
  intros H. apply orb_false_iff in H as [Hc Ha].
  rewrite Ascii.eqb_sym in Hc. rewrite Hc, (IH Ha). reflexivity.
Qed.

Lemma split_on_length (sep : ascii) (s : string) :
  List.length (PyStr.split_on sep s) = S (count_char sep s).
Proof.
  induction s as [|c s IH]; simpl; [reflexivity|].
  destruct (Ascii.eqb c sep); simpl; [now rewrite IH|].
  destruct (split_on_cons sep s) as [w [ws Hs]].
  rewrite Hs in *. simpl in *. exact IH.
Qed.

(** A peer of the shape label-nic-process, with no hyphen inside the three
    parts, gives back its NIC and its process; anything after a further
    hyphen is not looked at. *)
Theorem peer_fields_of_triple
        (r : ConnRow) (label nic process extra : string) :
  PyStr.mem "-" label = false ->
  PyStr.mem "-" nic = false ->
  PyStr.mem "-" process = false ->
  peer r = Some (label ++ "-" ++ nic ++ "-" ++ process)%string
  \/ peer r = Some (label ++ "-" ++ nic ++ "-" ++ process ++ "-" ++ extra)%string ->
  peer_field 1 r = Ok nic /\ peer_field 2 r = Ok process.
Proof.
  intros Hl Hn Hp Hpeer. unfold peer_field.
  destruct Hpeer as [-> | ->].
  - change (label ++ "-" ++ nic ++ "-" ++ process)%string
      with (label ++ String "-" (nic ++ String "-" process))%string.
    rewrite (split_on_app _ _ _ Hl), (split_on_app _ _ _ Hn),
      (split_on_none _ _ Hp). auto.
  - change (label ++ "-" ++ nic ++ "-" ++ process ++ "-" ++ extra)%string
      with (label ++ String "-" (nic ++ String "-" (process ++ String "-" extra)))%string.
    rewrite (split_on_app _ _ _ Hl), (split_on_app _ _ _ Hn),
      (split_on_app _ _ _ Hp). auto.
Qed.

Lemma peer_fields_of_triple_witness :
  peer_field 1 (local_tcp_row (Some "SADF")) = Ok "eth0"
  /\ peer_field 2 (local_tcp_row (Some "SADF")) = Ok "1".
Proof.
  apply (peer_fields_of_triple (local_tcp_row (Some "SADF"))
           "worker" "eth0" "1" ""); try reflexivity.
  left; reflexivity.
Defined.

Lemma mapM_raises {A B : Type} (f : A -> result B) (l : list A) (x : A) (e : PyExc) :
  In x l -> f x = Raise e ->
  exists e' x', mapM f l = Raise e' /\ In x' l /\ f x' = Raise e'.
Proof.
  induction l as [|a l IH]; intros Hin Hx; [destruct Hin|].
  simpl. destruct (f a) as [b|ea] eqn:Ea; cbn [bind].
  - destruct Hin as [->|Hin]; [congruence|].
    destruct (IH Hin Hx) as [e' [x' [Hm [Hin' Hx']]]].
    rewrite Hm; cbn [bind]. exists e', x'. auto.
  - exists ea, a. auto.
Qed.

Lemma peer_field_raises (i : nat) (r : ConnRow) (e : PyExc) :
  peer_field i r = Raise e -> e = AttributeError \/ e = IndexError.
Proof.
  unfold peer_field. destruct (peer r) as [p|].
  - destruct (nth_error (PyStr.split_on "-" p) i); [discriminate|].
    intros H; injection H as <-. now right.
  - intros H; injection H as <-. now left.
Qed.

Lemma mapM_raised_by {A B : Type} (f : A -> result B) (l : list A) (e : PyExc) :
  mapM f l = Raise e -> exists x, In x l /\ f x = Raise e.
Proof.
  induction l as [|a l IH]; simpl; [discriminate|].
  destruct (f a) as [b|ea] eqn:Ea; cbn [bind].
  - destruct (mapM f l) as [bs|eb]; cbn [bind]; [discriminate|].
    intros H; injection H as <-. destruct (IH eq_refl) as [x [Hx Hf]].
    exists x; auto.
  - intros H; injection H as <-. exists a; auto.
Qed.

(** The process field of a row is missing exactly when its peer has fewer
    than two hyphens (IndexError); a null peer has no fields at all
    (AttributeError); every other peer has a process field.  One row with a
    null peer or fewer than two hyphens, anywhere in the candidate set,
    makes the whole cross-tabulation raise one of the two errors. *)
Theorem cross_tabulate_bad_peer (r : ConnRow) :
  (peer r = None <-> peer_field 2 r = Raise AttributeError)
  /\ (forall p, peer r = Some p ->
        (peer_field 2 r = Raise IndexError <-> count_char "-" p < 2)
        /\ (2 <= count_char "-" p <->
            exists label nic process rest,
              PyStr.split_on "-" p = label :: nic :: process :: rest
              /\ peer_field 1 r = Ok nic
              /\ peer_field 2 r = Ok process))
  /\ (forall (df : DataFrame) (hd : nat),
        In r df ->
        peer r = None \/ (exists p, peer r = Some p /\ count_char "-" p < 2) ->
        exists e, cross_tabulate df hd = Raise e
                  /\ (e = AttributeError \/ e = IndexError)).
Proof.
  assert (Hnull : peer r = None <-> peer_field 2 r = Raise AttributeError).
  { unfold peer_field. destruct (peer r) as [p|]; [|tauto].
    split; [discriminate|].
    destruct (nth_error (PyStr.split_on "-" p) 2); discriminate. }
  assert (Hidx : forall p, peer r = Some p ->
            (peer_field 2 r = Raise IndexError <-> count_char "-" p < 2)).
  { intros p Hp. unfold peer_field. rewrite Hp.
    pose proof (split_on_length "-" p) as Hlen.
    destruct (nth_error (PyStr.split_on "-" p) 2) as [w|] eqn:E.
    - split; [discriminate|]. intros Hc.
      assert (2 < List.length (PyStr.split_on "-" p)).
      { apply nth_error_Some. congruence. }
      lia.
    - split; [intros _|reflexivity].
      apply nth_error_None in E. lia. }
  split; [exact Hnull|]. split.
  - intros p Hp. split; [exact (Hidx p Hp)|].
    pose proof (split_on_length "-" p) as Hlen.
    unfold peer_field. rewrite Hp.
    destruct (PyStr.split_on "-" p) as [|l0 [|n0 [|p0 rest]]] eqn:Es;
      simpl in Hlen.
    + lia.
    + split; [lia|]. intros [? [? [? [? [H _]]]]]; discriminate H.
    + split; [lia|]. intros [? [? [? [? [H _]]]]]; discriminate H.
    + split; [|lia]. intros _. exists l0, n0, p0, rest. auto.
  - intros df hd Hin Hbad.
    assert (Hr : exists e, peer_field 2 r = Raise e).
    { destruct Hbad as [Hn | [p [Hp Hc]]].
      - exists AttributeError. now apply Hnull.
      - exists IndexError. now apply (Hidx p Hp). }
    destruct Hr as [e2 He2].
    assert (Hne : df <> []) by (intros E; rewrite E in Hin; destruct Hin).
    unfold cross_tabulate. rewrite !(apply_rows_nonempty _ df Hne).
    destruct (mapM (peer_field 1) df) as [nic|e1] eqn:H1; cbn [bind].
    + destruct (mapM_raises _ df r e2 Hin He2) as [e' [x' [Hm [_ Hx']]]].
      rewrite Hm; cbn [bind]. exists e'. split; [reflexivity|].
      apply (peer_field_raises _ _ _ Hx').
    + exists e1. split; [reflexivity|].
      destruct (mapM_raised_by _ _ _ H1) as [x' [_ Hx']].
      apply (peer_field_raises _ _ _ Hx').
Qed.

Lemma cross_tabulate_bad_peer_witness :
  exists e,
    cross_tabulate [local_tcp_row (Some "SADF");
                    mkRow (Some "10.0.0.1") (Some 1111%Z) (Some "10.0.0.2")
                          (Some 80%Z) (Some "tcp") (Some "SADF") (Some true)
                          (Some true) (Some "worker-1")] 2
    = Raise e
    /\ (e = AttributeError \/ e = IndexError).
Proof.
  apply (cross_tabulate_bad_peer
           (mkRow (Some "10.0.0.1") (Some 1111%Z) (Some "10.0.0.2")
                  (Some 80%Z) (Some "tcp") (Some "SADF") (Some true)
                  (Some true) (Some "worker-1"))).
  - right; left; reflexivity.
  - right. exists "worker-1". split; [reflexivity|]. simpl; lia.
Defined.

(** ** The cells of the NIC / process table *)

Lemma insert_sorted_perm {A : Type} (leb : A -> A -> bool) (x : A) (l : list A) :
  Permutation (insert_sorted leb x l) (x :: l).
Proof.
  induction l as [|y l IH]; simpl; [apply Permutation_refl|].
  destruct (leb x y); [apply Permutation_refl|].
  etransitivity; [apply perm_skip, IH|apply perm_swap].
Qed.

Lemma isort_perm {A : Type} (leb : A -> A -> bool) (l : list A) :
  Permutation (isort leb l) l.
Proof.
  induction l as [|x l IH]; simpl; [apply perm_nil|].
  etransitivity; [apply insert_sorted_perm|now apply perm_skip].
Qed.

Lemma list_sum_no_hit {V : Type} (p : V -> bool) (L : list V) :
  (forall w, In w L -> p w = false) ->
  list_sum (map (fun w => if p w then 1 else 0) L) = 0.
Proof.
  induction L as [|w L IH]; intros H; simpl; [reflexivity|].
  rewrite (H w (or_introl eq_refl)), IH; [reflexivity|].
  intros u Hu. apply H. now right.
Qed.

Lemma list_sum_indicator {V : Type} (p : V -> bool) (L : list V) (v : V) :
  NoDup L -> In v L -> (forall w, In w L -> (p w = true <-> w = v)) ->
  list_sum (map (fun w => if p w then 1 else 0) L) = 1.
Proof.
  induction L as [|w L IH]; intros Hnd Hin Hp; [destruct Hin|].
  inversion Hnd as [|? ? Hnot Hnd']; subst. simpl.
  destruct Hin as [->|Hin].
  - rewrite (proj2 (Hp v (or_introl eq_refl)) eq_refl).
    rewrite list_sum_no_hit; [reflexivity|].
    intros u Hu. destruct (p u) eqn:Eu; [|reflexivity].
    apply (Hp u) in Eu; [|now right]. subst u. now exfalso.
  - destruct (p w) eqn:Ew.
    + apply (Hp w) in Ew; [|now left]. subst w. now exfalso.
    + simpl. apply IH; auto. intros w' Hw'. apply Hp. now right.
Qed.

Lemma list_sum_map_add {V : Type} (f g : V -> nat) (L : list V) :
  list_sum (map (fun v => f v + g v) L)
  = list_sum (map f L) + list_sum (map g L).
Proof.
  unfold list_sum. induction L as [|v L IH]; simpl; [reflexivity|].
  rewrite IH. lia.
Qed.

(** Counting the rows of each class of a partition counts every row once. *)
Lemma sum_over_classes {A V : Type} (eqb : V -> V -> bool) (g : A -> V)
      (L : list V) (l : list A) :
  (forall a b, eqb a b = true <-> a = b) ->
  NoDup L -> (forall x, In x l -> In (g x) L) ->
  list_sum (map (fun v => List.length (filter (fun x => eqb (g x) v) l)) L)
  = List.length l.
Proof.
  intros Heqb Hnd. induction l as [|x l IH]; intros Hin.
  - clear. induction L as [|v L IHL]; [reflexivity|exact IHL].
  - assert (Hsplit :
      list_sum (map (fun v => List.length (filter (fun y => eqb (g y) v) (x :: l))) L)
      = list_sum (map (fun v => if eqb (g x) v then 1 else 0) L)
        + list_sum (map (fun v => List.length (filter (fun y => eqb (g y) v) l)) L)).
    { rewrite <- list_sum_map_add. f_equal. apply map_ext. intros v.
      cbn [filter]. now destruct (eqb (g x) v). }
    rewrite Hsplit, IH by (intros y Hy; apply Hin; now right).
    rewrite (list_sum_indicator (fun v => eqb (g x) v) L (g x) Hnd).
    + reflexivity.
    + apply Hin. now left.
    + intros w _. rewrite Heqb. split; congruence.
Qed.

Lemma row_sum_cells (keys : list (string * Z)) (n : string) (procs : list Z) :
  row_sum (map (fun p => group_cell keys n p) procs)
  = list_sum (map (fun p => List.length (filter (fun k => key_eqb k n p) keys))
                  procs).
Proof.
  induction procs as [|p procs IH]; simpl; [reflexivity|].
  rewrite IH. unfold group_cell.
  now destruct (List.length (filter (fun k => key_eqb k n p) keys)).
Qed.

Lemma nodup_sorted_labels {A : Type} (dec : forall a b : A, {a = b} + {a <> b})
      (leb : A -> A -> bool) (l : list A) :
  NoDup (isort leb (nodup dec l))
  /\ (forall x, In x l -> In x (isort leb (nodup dec l))).
Proof.
  split.
  - apply (Permutation_NoDup (Permutation_sym (isort_perm leb _))).
    apply NoDup_nodup.
  - intros x Hx.
    apply (Permutation_in _ (Permutation_sym (isort_perm leb _))).
    now apply nodup_In.
Qed.

(** Every row of the input falls into exactly one cell: the cells of the
    table add up to the number of rows. *)
Lemma unstack_counts_total (keys : list (string * Z)) :
  list_sum (map row_sum (values (unstack_counts keys))) = List.length keys.
Proof.
  unfold unstack_counts; cbn [values].
  set (nics := isort String.leb (nodup string_dec (map fst keys))).
  set (procs := isort Z.leb (nodup Z.eq_dec (map snd keys))).
  rewrite map_map.
  destruct (nodup_sorted_labels string_dec String.leb (map fst keys))
    as [Hnd_n Hin_n].
  destruct (nodup_sorted_labels Z.eq_dec Z.leb (map snd keys))
    as [Hnd_p Hin_p].
  rewrite <- (sum_over_classes String.eqb fst nics keys String.eqb_eq Hnd_n).
  2:{ intros k Hk. apply Hin_n. now apply in_map. }
  f_equal. apply map_ext. intros n.
  rewrite row_sum_cells.
  rewrite <- (sum_over_classes Z.eqb snd procs
                (filter (fun k => String.eqb (fst k) n) keys) Z.eqb_eq Hnd_p).
  2:{ intros k Hk. apply filter_In in Hk as [Hk _].
      apply Hin_p. now apply in_map. }
  f_equal. apply map_ext. intros p.
  now rewrite filter_filter.
Qed.

Lemma row_sum_some (l : list nat) :
  row_sum (map Some l) = list_sum l.
Proof. induction l as [|x l IH]; simpl; [reflexivity|now rewrite IH]. Qed.

(** When every process token is a decimal numeral below [2^63] and the
    cross-tabulation completes, the printed table is well formed and
    complete: it has one line of cells per index label and one cell per
    column label in each line, and its [Total] column adds up to the number
    of candidates, so no candidate is lost or counted twice by the
    grouping. *)
Theorem cross_tabulate_counts_every_row
        (df : DataFrame) (hd : nat) (tok : list string)
        (t : Table) (dims : nat * nat) (es : EvenSplit) :
  mapM (peer_field 2) df = Ok tok ->
  forallb int64_token tok = true ->
  cross_tabulate df hd = Ok (t, dims, es) ->
  df <> []
  /\ row_sum (total_column t) = List.length df
  /\ List.length (values t) = List.length (index t)
  /\ Forall (fun cells => List.length cells = List.length (columns t))
            (values t)
  /\ last (columns t) Total = Total.
Proof.
  intros Htok _. unfold cross_tabulate.
  destruct (apply_rows (peer_field 1) df) as [nic|] eqn:Hn0; cbn [bind];
    [|discriminate].
  apply apply_rows_ok in Hn0 as [Hne Hn].
  rewrite (apply_rows_nonempty _ df Hne), Htok; cbn [bind].
  destruct (mapM to_numeric tok) as [process|] eqn:Hp; cbn [bind];
    [|discriminate].
  cbv zeta.
  destruct (shape (add_total (unstack_counts (combine nic process))))
    as [num_nics num_procs].
  destruct (zero_division_ok _ _); cbn [bind]; [|discriminate].
  destruct (zero_division_ok _ _); cbn [bind]; [|discriminate].
  destruct (zero_division_ok _ _); cbn [bind]; [|discriminate].
  destruct (zero_division_ok _ _); cbn [bind]; [|discriminate].
  intros H; injection H as <- _ _.
  assert (Hlen : List.length (combine nic process) = List.length df).
  { rewrite length_combine.
    rewrite (mapM_length _ _ _ Hn), (mapM_length _ _ _ Hp),
      (mapM_length _ _ _ Htok). apply Nat.min_id. }
  split; [exact Hne|]. repeat split.
  - unfold total_column, add_total; cbn [values].
    rewrite map_map.
    rewrite (map_ext _ (fun cells => Some (row_sum cells)))
      by (intros cells; apply last_last).
    rewrite <- (map_map row_sum Some), row_sum_some.
    now rewrite unstack_counts_total.
  - unfold add_total, unstack_counts; cbn [values index].
    now rewrite !length_map.
  - unfold add_total, unstack_counts; cbn [values columns].
    apply Forall_forall. intros cells Hc.
    apply in_map_iff in Hc as [c0 [<- Hc0]].
    apply in_map_iff in Hc0 as [n [<- _]].
    now rewrite !length_app, !length_map.
  - unfold add_total; cbn [columns]. apply last_last.
Qed.

Lemma cross_tabulate_counts_every_row_witness :
  [local_tcp_row (Some "SADF")] <> []
  /\ row_sum (total_column (mkTable ["eth0"] [Proc 1; Total] [[Some 1; Some 1]])) = 1
  /\ List.length (values (mkTable ["eth0"] [Proc 1; Total] [[Some 1; Some 1]]))
     = List.length (index (mkTable ["eth0"] [Proc 1; Total] [[Some 1; Some 1]]))
  /\ Forall (fun cells => List.length cells
                          = List.length (columns (mkTable ["eth0"] [Proc 1; Total]
                                                          [[Some 1; Some 1]])))
            (values (mkTable ["eth0"] [Proc 1; Total] [[Some 1; Some 1]]))
  /\ last (columns (mkTable ["eth0"] [Proc 1; Total] [[Some 1; Some 1]])) Total
     = Total.
Proof.
  apply (cross_tabulate_counts_every_row [local_tcp_row (Some "SADF")] 1 ["1"]
           (mkTable ["eth0"] [Proc 1; Total] [[Some 1; Some 1]]) (1, 2)
           (mkEvenSplit (1 # 2) (1 # 1) (1 # 2) (1 # 1)));
    reflexivity.
Defined.

(** When every process token is a decimal numeral below [2^63]: because
    the [Total] column is counted among the columns, the table is printed
    transposed whenever there are at most as many distinct NICs as distinct
    processes, also when there are equally many. *)
Theorem transposed_when_nics_not_more
        (df : DataFrame) (hd : nat) (nic tok : list string) (process : list Z)
        (t : Table) (dims : nat * nat) (es : EvenSplit) :
  mapM (peer_field 1) df = Ok nic ->
  mapM (peer_field 2) df = Ok tok ->
  forallb int64_token tok = true ->
  mapM to_numeric tok = Ok process ->
  cross_tabulate df hd = Ok (t, dims, es) ->
  dims = (distinct_nics nic, S (distinct_processes process))
  /\ transposed_for_display dims
     = (distinct_nics nic <=? distinct_processes process).
Proof.
  intros Hn Ht _ Hp Hct.
  assert (Hne : df <> []).
  { intros E. rewrite E in Hct. discriminate Hct. }
  destruct (cross_tabulate_figures df hd nic tok process Hne Hn Ht Hp)
    as [t' [es' [Hct' _]]].
  rewrite Hct' in Hct. injection Hct as _ <- _.
  split; [reflexivity|].
  unfold transposed_for_display.
  destruct (distinct_nics nic <=? distinct_processes process) eqn:E.
  - apply Nat.leb_le in E. apply Nat.ltb_lt. lia.
  - apply Nat.leb_gt in E. apply Nat.ltb_ge. lia.
Qed.

Lemma transposed_when_nics_not_more_witness :
  (1, 2) = (distinct_nics ["eth0"], S (distinct_processes [1%Z]))
  /\ transposed_for_display (1, 2)
     = (distinct_nics ["eth0"] <=? distinct_processes [1%Z]).
Proof.
  apply (transposed_when_nics_not_more [local_tcp_row (Some "SADF")] 1
           ["eth0"] ["1"] [1%Z]
           (mkTable ["eth0"] [Proc 1; Total] [[Some 1; Some 1]]) (1, 2)
           (mkEvenSplit (1 # 2) (1 # 1) (1 # 2) (1 # 1))); reflexivity.
Defined.

(** ** The rows that the pairing keeps *)

Lemma leb_negb_ltb (a b : string) :
  (a <=? b)%string = negb (b <? a)%string.
Proof.
  unfold String.leb, String.ltb. rewrite (String.compare_antisym a b).
  now destruct (String.compare b a).
Qed.

Lemma add_ids_raises (r : ConnRow) (e : PyExc) :
  add_ids r = Raise e -> e = TypeError /\ has_addresses r = false.
Proof.
  unfold add_ids, join_id, has_addresses.
  destruct (id_orig_h r), (id_resp_h r); cbn [bind]; intros H;
    first [discriminate H | injection H as <-; auto].
Qed.

Lemma add_ids_ok (r : ConnRow) :
  has_addresses r = true -> exists x, add_ids r = Ok x.
Proof.
  unfold add_ids, join_id, has_addresses.
  destruct (id_orig_h r), (id_resp_h r); cbn [bind]; intros H;
    first [discriminate H | eauto].
Qed.

Lemma mapM_all_ok {A B : Type} (f : A -> result B) (l : list A) :
  (forall x, In x l -> exists y, f x = Ok y) -> exists l', mapM f l = Ok l'.
Proof.
  induction l as [|a l IH]; intros H; simpl; [eauto|].
  destruct (H a (or_introl eq_refl)) as [b ->]; cbn [bind].
  destruct IH as [bs ->]; [intros x Hx; apply H; now right|].
  cbn [bind]. eauto.
Qed.

(** The rows of [merged_df] are exactly the pairs of candidates, each with
    its identifiers, in which the directional identifier of the first is
    the reverse identifier of the second and does not sort after the
    first's own reverse identifier.  The reported count is twice their
    number, and the ranked column holds the first legs' histories. *)
Theorem merged_rows_characterised (df : DataFrame) (hd : nat) (p : Pairing) :
  pair_flows df hd = Ok p ->
  exists ids : list FlowRow,
    mapM add_ids df = Ok ids
    /\ List.length ids = List.length df
    /\ (forall x y,
          In (x, y) (merged_df p) <->
          In x ids /\ In y ids
          /\ conn_id x = reverse_id y
          /\ (conn_id x <=? reverse_id x)%string = true)
    /\ (forall x, In x ids -> In (row x) df /\ add_ids (row x) = Ok x)
    /\ paired_conns p = 2 * List.length (merged_df p)
    /\ history_x p = map (fun xy => history (row (fst xy))) (merged_df p).
Proof.
  unfold pair_flows.
  destruct (apply_rows add_ids df) as [ids|] eqn:Hids0; cbn [bind];
    [|discriminate].
  apply apply_rows_ok in Hids0 as [_ Hids].
  cbv zeta.
  destruct (zero_division_ok _ _) as [q|]; cbn [bind]; [|discriminate].
  intros H; injection H as <-. cbn [merged_df paired_conns history_x].
  exists ids. split; [exact Hids|]. repeat split; try reflexivity; try lia.
  - apply (mapM_length _ _ _ Hids).
  - unfold keep_canonical in H. apply filter_In in H as [H _].
    now apply In_merge in H.
  - unfold keep_canonical in H. apply filter_In in H as [H _].
    now apply In_merge in H.
  - unfold keep_canonical in H. apply filter_In in H as [H _].
    now apply In_merge in H.
  - unfold keep_canonical in H. apply filter_In in H as [H Hc].
    apply In_merge in H as [Hx _]. cbn [fst] in Hc.
    rewrite (canonical_test x (proj2 (flows_of_ids _ _ _ Hids Hx))) in Hc.
    now rewrite leb_negb_ltb.
  - intros [Hx [Hy [Hm Hle]]]. unfold keep_canonical.
    apply filter_In; split; [now apply In_merge|]. cbn [fst].
    rewrite (canonical_test x (proj2 (flows_of_ids _ _ _ Hids Hx))).
    now rewrite <- leb_negb_ltb.
  - apply (flows_of_ids _ _ _ Hids H).
  - destruct (mapM_In _ _ _ _ Hids H) as [r [_ Hr]].
    now rewrite (proj1 (add_ids_spec r x Hr)).
Qed.

Lemma merged_rows_characterised_witness :
  exists ids : list FlowRow,
    mapM add_ids [local_tcp_row (Some "SADF"); reverse_tcp_row (Some "shadf")]
    = Ok ids
    /\ List.length ids = 2.
Proof.
  destruct (merged_rows_characterised
              [local_tcp_row (Some "SADF"); reverse_tcp_row (Some "shadf")] 2
              (mkPairing [(forward_flow, backward_flow)] 2 (2 # 2)
                         [Some "SADF"] [("SADF", 1)]) eq_refl)
    as [ids [Hids [Hlen _]]].
  exists ids. split; [exact Hids|exact Hlen].
Defined.

Lemma filter_map_commute {A B : Type} (g : A -> B) (p : B -> bool)
      (q : A -> bool) (l : list A) :
  (forall x, p (g x) = q x) -> filter p (map g l) = map g (filter q l).
Proof.
  intros H. induction l as [|x l IH]; simpl; [reflexivity|].
  rewrite H. destruct (q x); simpl; now rewrite IH.
Qed.

Lemma funnel_ignores_addresses (df0 : DataFrame) :
  half_duplex_set (map clear_addresses df0)
  = map clear_addresses (half_duplex_set df0).
Proof.
  unfold half_duplex_set, keep_halfduplex, keep_multichar, strip_history,
    keep_local, keep_tcp.
  rewrite (filter_map_commute clear_addresses _
             (fun r => opt_str_eqb (proto r) "tcp")) by reflexivity.
  rewrite (filter_map_commute clear_addresses _
             (fun r => opt_is_true (local_orig r) && opt_is_true (local_resp r)))
    by reflexivity.
  rewrite !map_map.
  rewrite <- (map_map (fun r => set_history r (strip_caret (history r)))
                      clear_addresses).
  rewrite (filter_map_commute clear_addresses _
             (fun r => len_gt_1 (history r))) by reflexivity.
  now rewrite (filter_map_commute clear_addresses _
                 (fun r => hist_isupper r || hist_islower r)) by reflexivity.
Qed.

(** The funnel does not look at the addresses: with every address made
    null it keeps the same rows.  The pair ranking and the flow pairing
    concatenate the addresses: on a candidate set with at least one row
    they complete when every row has both addresses, and one row with a
    null address makes each of them raise TypeError; on an empty candidate
    set both raise ValueError. *)
Theorem null_address_aborts (df0 df : DataFrame) (hd : nat) :
  (exists f f',
      run_funnel df0 = Ok f
      /\ run_funnel (map clear_addresses df0) = Ok f'
      /\ candidates f' = map clear_addresses (candidates f)
      /\ halfduplex_lines f' = halfduplex_lines f)
  /\ match df with
     | [] =>
         pair_counts df = Raise ValueError
         /\ pair_flows df hd = Raise ValueError
     | _ :: _ =>
         if forallb has_addresses df
         then (exists k, pair_counts df = Ok k)
              /\ (exists p, pair_flows df hd = Ok p)
         else pair_counts df = Raise TypeError
              /\ pair_flows df hd = Raise TypeError
     end.
Proof.
  split.
  { eexists; eexists. split; [apply run_funnel_ok|].
    split; [apply run_funnel_ok|]. cbn [candidates halfduplex_lines].
    rewrite funnel_ignores_addresses. split; [reflexivity|].
    now rewrite length_map. }
  destruct df as [|r0 df']; [split; reflexivity|].
  set (df := r0 :: df').
  assert (Hne : df <> []) by discriminate.
  destruct (forallb has_addresses df) eqn:Hall.
  - rewrite forallb_forall in Hall. split.
    + unfold pair_counts. rewrite (apply_rows_nonempty _ df Hne).
      destruct (mapM_all_ok ip_pair df) as [keys ->]; [|cbn [bind]; eauto].
      intros r Hr. specialize (Hall r Hr).
      unfold has_addresses in Hall. unfold ip_pair.
      destruct (id_orig_h r), (id_resp_h r); try discriminate Hall. eauto.
    + unfold pair_flows. rewrite (apply_rows_nonempty _ df Hne).
      destruct (mapM_all_ok add_ids df) as [ids ->].
      { intros r Hr. apply add_ids_ok, Hall, Hr. }
      cbn [bind]. cbv zeta.
      destruct (zero_division_ok_returns
                  (Z.of_nat (List.length (keep_canonical (merge ids ids)) * 2))
                  (Z.of_nat hd)) as [q ->].
      cbn [bind]. eauto.
  - assert (Hex : exists r, In r df /\ has_addresses r = false).
    { clear -Hall. induction df as [|a df IH]; [discriminate Hall|].
      simpl in Hall. destruct (has_addresses a) eqn:Ea.
      - destruct (IH Hall) as [r [Hr Hf]]. exists r; simpl; auto.
      - exists a; simpl; auto. }
    destruct Hex as [r [Hr Hf]]. split.
    + unfold pair_counts. rewrite (apply_rows_nonempty _ df Hne).
      assert (Hrr : ip_pair r = Raise TypeError).
      { unfold has_addresses in Hf. unfold ip_pair.
        destruct (id_orig_h r), (id_resp_h r); try discriminate Hf; reflexivity. }
      destruct (mapM_raises ip_pair df r _ Hr Hrr) as [e' [x' [-> [_ Hx']]]].
      cbn [bind]. f_equal. unfold ip_pair in Hx'.
      destruct (id_orig_h x'), (id_resp_h x'); try discriminate Hx';
        now injection Hx'.
    + unfold pair_flows. rewrite (apply_rows_nonempty _ df Hne).
      assert (Hrr : add_ids r = Raise TypeError).
      { unfold has_addresses in Hf. unfold add_ids, join_id.
        destruct (id_orig_h r), (id_resp_h r); try discriminate Hf; reflexivity. }
      destruct (mapM_raises add_ids df r _ Hr Hrr) as [e' [x' [-> [_ Hx']]]].
      cbn [bind]. f_equal. apply (add_ids_raises x' e' Hx').
Qed.

(** ** Reading identifiers back *)

Lemma digits_only (c : ascii) (d : Decimal.uint) :
  PyStr.between 48 57 (PyStr.code c) = false ->
  PyStr.mem c (NilEmpty.string_of_uint d) = false.
Proof.
  intros Hc. induction d; simpl; try exact IHd; try reflexivity;
    rewrite IHd, orb_false_r;
    destruct c as [[] [] [] [] [] [] [] []]; try reflexivity;
    discriminate Hc.
Qed.

Lemma to_uint_not_nil (p : positive) : Pos.to_uint p <> Decimal.Nil.
Proof. apply DecimalPos.Unsigned.to_uint_nonnil. Qed.

(** The numeral of an integer that is not negative consists of digits. *)
Lemma str_of_int_digits (c : ascii) (n : Z) :
  (0 <= n)%Z -> PyStr.between 48 57 (PyStr.code c) = false ->
  PyStr.mem c (PyStr.str_of_int n) = false.
Proof.
  intros Hn Hc. unfold PyStr.str_of_int.
  destruct n as [|p|p]; [| |lia].
  - simpl. rewrite orb_false_r.
    destruct c as [[] [] [] [] [] [] [] []]; try reflexivity; discriminate Hc.
  - simpl. pose proof (to_uint_not_nil p) as Hnil.
    destruct (Pos.to_uint p) eqn:E; try contradiction;
      rewrite <- E; unfold NilZero.string_of_uint; rewrite E; rewrite <- E;
      now apply digits_only.
Qed.

(** [str] prints different integers differently. *)
Lemma str_of_int_inj (n m : Z) :
  PyStr.str_of_int n = PyStr.str_of_int m -> n = m.
Proof.
  unfold PyStr.str_of_int. intros H.
  apply DecimalZ.to_int_inj.
  assert (Hok : forall z, Z.to_int z <> Decimal.Pos Decimal.Nil
                          /\ Z.to_int z <> Decimal.Neg Decimal.Nil).
  { intros [|p|p]; simpl; split; intros Hz; try discriminate Hz;
      injection Hz as Hz; now apply (to_uint_not_nil p). }
  pose proof (NilZero.isi (Z.to_int n) (proj1 (Hok n)) (proj2 (Hok n))) as Hn.
  pose proof (NilZero.isi (Z.to_int m) (proj1 (Hok m)) (proj2 (Hok m))) as Hm.
  rewrite H, Hm in Hn. now injection Hn.
Qed.

Lemma str_port_inj (p q : option Z) :
  port_ok p = true -> port_ok q = true ->
  str_port p = str_port q -> p = q.
Proof.
  destruct p as [n|], q as [m|]; simpl; intros Hp Hq H.
  - f_equal. now apply str_of_int_inj.
  - apply Z.leb_le in Hp.
    pose proof (str_of_int_digits "<" n Hp eq_refl) as Hd.
    rewrite H in Hd. discriminate Hd.
  - apply Z.leb_le in Hq.
    pose proof (str_of_int_digits "<" m Hq eq_refl) as Hd.
    rewrite <- H in Hd. discriminate Hd.
  - reflexivity.
Qed.

Lemma str_port_no_hyphen (p : option Z) :
  port_ok p = true -> PyStr.mem "-" (str_port p) = false.
Proof.
  destruct p as [n|]; simpl; intros Hp; [|reflexivity].
  apply Z.leb_le in Hp. now apply str_of_int_digits.
Qed.

Lemma app_sep_inj (c : ascii) (a b r r' : string) :
  PyStr.mem c a = false -> PyStr.mem c b = false ->
  (a ++ String c r)%string = (b ++ String c r')%string ->
  a = b /\ r = r'.
Proof.
  revert b; induction a as [|x a IH]; intros [|y b]; simpl; intros Ha Hb H.
  - injection H as H. auto.
  - injection H as Hc _. subst y. now rewrite Ascii.eqb_refl in Hb.
  - injection H as Hc _. subst x. now rewrite Ascii.eqb_refl in Ha.
  - injection H as Hxy H. subst y.
    apply orb_false_iff in Ha as [_ Ha]. apply orb_false_iff in Hb as [_ Hb].
    destruct (IH b Ha Hb H) as [-> ->]. auto.
Qed.

(** An identifier determines its four parts when the addresses have no
    slash and the ports are null or not negative. *)
Lemma join_id_inj (a a' b b' : option string) (p p' q q' : option Z)
      (c : string) :
  slash_free a = true -> slash_free a' = true ->
  slash_free b = true -> slash_free b' = true ->
  port_ok p = true -> port_ok p' = true ->
  port_ok q = true -> port_ok q' = true ->
  join_id a p a' p' = Ok c -> join_id b q b' q' = Ok c ->
  a = b /\ p = q /\ a' = b' /\ p' = q'.
Proof.
  unfold join_id, slash_free.
  destruct a as [a|], a' as [a'|], b as [b|], b' as [b'|]; try discriminate.
  intros Ha Ha' Hb Hb' Hp Hp' Hq Hq' H1 H2.
  apply negb_true_iff in Ha, Ha', Hb, Hb'.
  injection H1 as H1. injection H2 as H2. rewrite <- H2 in H1. clear H2.
  change (a ++ String "/" (str_port p ++ String "-" (a' ++ String "/" (str_port p'))))%string
    with (a ++ "/" ++ str_port p ++ "-" ++ a' ++ "/" ++ str_port p')%string in H1.
  change (a ++ "/" ++ str_port p ++ "-" ++ a' ++ "/" ++ str_port p')%string
    with (a ++ String "/" (str_port p ++ String "-" (a' ++ String "/" (str_port p'))))%string
    in H1.
  change (b ++ "/" ++ str_port q ++ "-" ++ b' ++ "/" ++ str_port q')%string
    with (b ++ String "/" (str_port q ++ String "-" (b' ++ String "/" (str_port q'))))%string
    in H1.
  apply (app_sep_inj "/" _ _ _ _ Ha Hb) in H1 as [-> H1].
  apply (app_sep_inj "-" _ _ _ _ (str_port_no_hyphen p Hp)
                     (str_port_no_hyphen q Hq)) in H1 as [Hpq H1].
  apply (app_sep_inj "/" _ _ _ _ Ha' Hb') in H1 as [-> Hpq'].
  rewrite (str_port_inj p q Hp Hq Hpq), (str_port_inj p' q' Hp' Hq' Hpq').
  auto.
Qed.

(** On rows with slash-free addresses and ports that are null or not
    negative the join condition is symmetric: when the directional
    identifier of [x] is the reverse identifier of [y], the two rows have
    their endpoints exchanged, so [y] is joined with [x] as well. *)
Theorem join_symmetric
        (df : DataFrame) (ids : list FlowRow) (x y : FlowRow) :
  forallb plain_endpoints df = true ->
  mapM add_ids df = Ok ids ->
  In x ids -> In y ids ->
  conn_id x = reverse_id y ->
  id_orig_h (row x) = id_resp_h (row y)
  /\ id_orig_p (row x) = id_resp_p (row y)
  /\ id_resp_h (row x) = id_orig_h (row y)
  /\ id_resp_p (row x) = id_orig_p (row y)
  /\ conn_id y = reverse_id x
  /\ In (y, x) (merge ids ids).
Proof.
  intros Hall Hids Hx Hy Hm.
  rewrite forallb_forall in Hall.
  destruct (mapM_In _ _ _ _ Hids Hx) as [rx [Hrx Hax]].
  destruct (mapM_In _ _ _ _ Hids Hy) as [ry [Hry Hay]].
  destruct (add_ids_spec rx x Hax) as [Hrowx [Hcx [Hvx _]]].
  destruct (add_ids_spec ry y Hay) as [Hrowy [Hcy [Hvy _]]].
  rewrite Hrowx, Hrowy.
  pose proof (Hall rx Hrx) as Hpx. pose proof (Hall ry Hry) as Hpy.
  unfold plain_endpoints in Hpx, Hpy.
  repeat (match goal with
          | H : _ && _ = true |- _ => apply andb_true_iff in H as [? ?]
          end).
  rewrite Hm in Hcx.
  assert (Hinj : id_orig_h rx = id_resp_h ry /\ id_orig_p rx = id_resp_p ry
                 /\ id_resp_h rx = id_orig_h ry /\ id_resp_p rx = id_orig_p ry).
  { apply (join_id_inj (id_orig_h rx) (id_resp_h rx)
                       (id_resp_h ry) (id_orig_h ry)
                       (id_orig_p rx) (id_resp_p rx)
                       (id_resp_p ry) (id_orig_p ry) (reverse_id y)); auto. }
  destruct Hinj as [E1 [E2 [E3 E4]]].
  assert (Hsym : conn_id y = reverse_id x).
  { rewrite E1, E2, E3, E4 in Hvx. rewrite Hcy in Hvx. now injection Hvx. }
  repeat split; auto.
  apply In_merge. auto.
Qed.

Lemma join_symmetric_witness :
  id_orig_h (row forward_flow) = id_resp_h (row backward_flow)
  /\ id_orig_p (row forward_flow) = id_resp_p (row backward_flow)
  /\ id_resp_h (row forward_flow) = id_orig_h (row backward_flow)
  /\ id_resp_p (row forward_flow) = id_orig_p (row backward_flow)
  /\ conn_id backward_flow = reverse_id forward_flow
  /\ In (backward_flow, forward_flow)
        (merge [forward_flow; backward_flow] [forward_flow; backward_flow]).
Proof.
  apply (join_symmetric
           [local_tcp_row (Some "SADF"); reverse_tcp_row (Some "shadf")]
           [forward_flow; backward_flow] forward_flow backward_flow);
    try reflexivity.
  - left; reflexivity.
  - right; left; reflexivity.
Defined.

(** ** Repeated self-mirroring records *)

Lemma add_ids_self_mirror (r : ConnRow) (addr : string) :
  id_orig_h r = Some addr -> id_resp_h r = Some addr ->
  id_orig_p r = id_resp_p r ->
  exists c, add_ids r = Ok (mkFlowRow r c c c).
Proof.
  intros Ho Hr Hp.
  exists (addr ++ "/" ++ str_port (id_orig_p r) ++ "-"
          ++ addr ++ "/" ++ str_port (id_orig_p r))%string.
  unfold add_ids, join_id. rewrite Ho, Hr, <- Hp; cbn [bind].
  now rewrite ltb_irrefl.
Qed.

Lemma mapM_repeat {A B : Type} (f : A -> result B) (a : A) (b : B) (n : nat) :
  f a = Ok b -> mapM f (repeat a n) = Ok (repeat b n).
Proof.
  intros H. induction n as [|n IH]; simpl; [reflexivity|].
  now rewrite H, IH.
Qed.

Lemma filter_repeat {A : Type} (p : A -> bool) (a : A) (n : nat) :
  p a = true -> filter p (repeat a n) = repeat a n.
Proof.
  intros H. induction n as [|n IH]; simpl; [reflexivity|].
  now rewrite H, IH.
Qed.

Lemma flat_map_repeat {A B : Type} (g : A -> list B) (a : A) (b : B) (n m : nat) :
  g a = repeat b m -> flat_map g (repeat a n) = repeat b (n * m).
Proof.
  intros H. induction n as [|n IH]; simpl; [reflexivity|].
  now rewrite H, IH, repeat_app.
Qed.

(** A record that mirrors itself is joined with every copy of itself: when
    the candidate set consists of [n] copies of such a record, the pairing
    keeps [n * n] rows and reports [2 * n * n] paired connections, more
    than there are candidates as soon as [n] is at least 1. *)
Theorem self_mirror_copies_counted_squared
        (r : ConnRow) (addr : string) (n hd : nat) :
  id_orig_h r = Some addr ->
  id_resp_h r = Some addr ->
  id_orig_p r = id_resp_p r ->
  exists p : Pairing,
    pair_flows (repeat r (S n)) hd = Ok p
    /\ List.length (merged_df p) = S n * S n
    /\ paired_conns p = 2 * (S n * S n)
    /\ history_x p = repeat (history r) (S n * S n)
    /\ List.length (repeat r (S n)) < paired_conns p.
Proof.
  intros Ho Hr Hp.
  destruct (add_ids_self_mirror r addr Ho Hr Hp) as [c Hadd].
  set (x := mkFlowRow r c c c) in *.
  set (m := S n).
  assert (Hm : keep_canonical (merge (repeat x m) (repeat x m))
               = repeat (x, x) (m * m)).
  { unfold keep_canonical.
    assert (Hmerge : merge (repeat x m) (repeat x m) = repeat (x, x) (m * m)).
    { unfold merge. apply flat_map_repeat.
      rewrite filter_repeat by (unfold x; simpl; apply String.eqb_refl).
      apply map_repeat. }
    rewrite Hmerge. apply filter_repeat.
    unfold x; simpl. apply String.eqb_refl. }
  unfold pair_flows. fold m.
  rewrite (apply_rows_nonempty add_ids (repeat r m))
    by (unfold m; discriminate).
  rewrite (mapM_repeat add_ids r x m Hadd); cbn [bind]. cbv zeta.
  rewrite Hm.
  destruct (zero_division_ok_returns
              (Z.of_nat (List.length (repeat (x, x) (m * m)) * 2))
              (Z.of_nat hd)) as [q ->].
  cbn [bind]. eexists; split; [reflexivity|].
  cbn [merged_df paired_conns history_x].
  rewrite !repeat_length, map_repeat. unfold x; simpl.
  repeat split; try reflexivity; unfold m; lia.
Qed.

Lemma self_mirror_copies_counted_squared_witness :
  exists p : Pairing,
    pair_flows (repeat (self_tcp_row (Some "SADF")) 2) 2 = Ok p
    /\ List.length (merged_df p) = 2 * 2
    /\ paired_conns p = 2 * (2 * 2)
    /\ history_x p = repeat (history (self_tcp_row (Some "SADF"))) (2 * 2)
    /\ List.length (repeat (self_tcp_row (Some "SADF")) 2) < paired_conns p.
Proof.
  apply (self_mirror_copies_counted_squared
           (self_tcp_row (Some "SADF")) "10.0.0.1" 1 2); reflexivity.
Defined.

(** ** Rankings *)

Lemma count_of_bump (k k' : string) (acc : list (string * nat)) :
  count_of k' (bump String.eqb k acc)
  = count_of k' acc + (if String.eqb k' k then 1 else 0).
Proof.
  unfold count_of. induction acc as [|[k0 n0] acc IH]; simpl.
  - destruct (String.eqb k' k); reflexivity.
  - destruct (String.eqb k k0) eqn:E; simpl.
    + apply String.eqb_eq in E; subst k0.
      destruct (String.eqb k' k); simpl; lia.
    + destruct (String.eqb k' k0) eqn:E'; simpl; [|exact IH].
      apply String.eqb_eq in E'; subst k0.
      rewrite String.eqb_sym, E. lia.
Qed.

Lemma keys_bump (k k' : string) (acc : list (string * nat)) :
  In k' (map fst (bump String.eqb k acc)) <-> k' = k \/ In k' (map fst acc).
Proof.
  induction acc as [|[k0 n0] acc IH]; simpl.
  - intuition.
  - destruct (String.eqb k k0) eqn:E; simpl.
    + apply String.eqb_eq in E; subst k0. intuition.
    + rewrite IH. intuition.
Qed.

Lemma nodup_bump (k : string) (acc : list (string * nat)) :
  NoDup (map fst acc) -> NoDup (map fst (bump String.eqb k acc)).
Proof.
  induction acc as [|[k0 n0] acc IH]; simpl; intros Hnd.
  - constructor; [intros []|constructor].
  - inversion Hnd as [|? ? Hnot Hnd']; subst.
    destruct (String.eqb k k0) eqn:E; simpl.
    + now constructor.
    + constructor; [|now apply IH].
      rewrite keys_bump. intros [->|Hin]; [|contradiction].
      now rewrite String.eqb_refl in E.
Qed.

Lemma positive_bump (k : string) (acc : list (string * nat)) :
  Forall (fun e => 0 < snd e) acc ->
  Forall (fun e => 0 < snd e) (bump String.eqb k acc).
Proof.
  induction acc as [|[k0 n0] acc IH]; simpl; intros H.
  - constructor; [simpl; lia|constructor].
  - inversion H; subst. simpl in *.
    destruct (String.eqb k k0); constructor; simpl; auto; lia.
Qed.

Lemma sum_bump (k : string) (acc : list (string * nat)) :
  list_sum (map snd (bump String.eqb k acc)) = S (list_sum (map snd acc)).
Proof.
  induction acc as [|[k0 n0] acc IH]; simpl; [reflexivity|].
  destruct (String.eqb k k0); simpl; [reflexivity|]. rewrite IH. lia.
Qed.

(** The tally after a column, started from a tally [acc]. *)
Lemma tally_from (col : list (option string)) (acc : list (string * nat)) :
  NoDup (map fst acc) -> Forall (fun e => 0 < snd e) acc ->
  let res := fold_left (fun a v => match v with
                                   | Some k => bump String.eqb k a
                                   | None => a
                                   end) col acc in
  NoDup (map fst res)
  /\ Forall (fun e => 0 < snd e) res
  /\ (forall k, count_of k res = count_of k acc + occurrences k col)
  /\ list_sum (map snd res) = list_sum (map snd acc) + non_null col.
Proof.
  revert acc; induction col as [|v col IH]; intros acc Hnd Hpos; simpl.
  - repeat split; auto; try intros k;
      unfold occurrences, non_null; simpl; lia.
  - destruct v as [k|].
    + destruct (IH (bump String.eqb k acc) (nodup_bump k acc Hnd)
                  (positive_bump k acc Hpos)) as [H1 [H2 [H3 H4]]].
      repeat split; auto.
      * intros k'. rewrite H3, count_of_bump. unfold occurrences; simpl.
        destruct (String.eqb k' k); simpl; lia.
      * rewrite H4, sum_bump. unfold non_null; simpl. lia.
    + destruct (IH acc Hnd Hpos) as [H1 [H2 [H3 H4]]].
      repeat split; auto.
Qed.

Lemma count_of_In (acc : list (string * nat)) (k : string) (n : nat) :
  NoDup (map fst acc) -> Forall (fun e => 0 < snd e) acc ->
  (In (k, n) acc <-> n = count_of k acc /\ 0 < n).
Proof.
  unfold count_of. induction acc as [|[k0 n0] acc IH]; simpl; intros Hnd Hpos.
  - split; [intros [] | intros [-> H]; lia].
  - inversion Hnd as [|? ? Hnot Hnd']; subst.
    inversion Hpos as [|? ? Hp0 Hpos']; subst. simpl in Hp0.
    destruct (String.eqb k k0) eqn:E; simpl.
    + apply String.eqb_eq in E; subst k0. split.
      * intros [H|H]; [injection H as <-; auto|].
        exfalso. apply Hnot. apply (in_map fst) in H. exact H.
      * intros [-> _]. now left.
    + rewrite <- (IH Hnd' Hpos'). split; [|now right].
      intros [H|H]; [|exact H]. injection H as <- <-.
      now rewrite String.eqb_refl in E.
Qed.

Lemma insert_desc_perm {K : Type} (e : K * nat) (l : list (K * nat)) :
  Permutation (insert_desc e l) (e :: l).
Proof.
  induction l as [|e' l IH]; simpl; [apply Permutation_refl|].
  destruct (snd e' <=? snd e); [apply Permutation_refl|].
  etransitivity; [apply perm_skip, IH|apply perm_swap].
Qed.

Lemma value_counts_perm {K : Type} (eqb : K -> K -> bool) (col : list (option K)) :
  Permutation (value_counts eqb col) (tally eqb col).
Proof.
  unfold value_counts. induction (tally eqb col) as [|e l IH]; simpl.
  - apply perm_nil.
  - etransitivity; [apply insert_desc_perm|now apply perm_skip].
Qed.

Lemma insert_desc_sorted {K : Type} (e : K * nat) (l : list (K * nat)) :
  StronglySorted (fun a b => snd b <= snd a) l ->
  StronglySorted (fun a b => snd b <= snd a) (insert_desc e l).
Proof.
  induction l as [|e' l IH]; simpl; intros Hs.
  - constructor; constructor.
  - inversion Hs as [|? ? Hs' Hall]; subst.
    destruct (snd e' <=? snd e) eqn:E.
    + apply Nat.leb_le in E. constructor; [exact Hs|].
      constructor; [lia|].
      eapply Forall_impl; [|exact Hall]. simpl. intros; lia.
    + apply Nat.leb_gt in E. constructor; [now apply IH|].
      apply Forall_forall. intros b Hb.
      apply (Permutation_in _ (insert_desc_perm e l)) in Hb.
      destruct Hb as [<-|Hb]; [lia|].
      rewrite Forall_forall in Hall. now apply Hall.
Qed.

Lemma value_counts_sorted {K : Type} (eqb : K -> K -> bool)
      (col : list (option K)) :
  StronglySorted (fun a b => snd b <= snd a) (value_counts eqb col).
Proof.
  unfold value_counts. induction (tally eqb col) as [|e l IH]; simpl.
  - constructor.
  - now apply insert_desc_sorted.
Qed.

Lemma value_counts_sum (col : list (option string)) :
  list_sum (map snd (value_counts String.eqb col)) = non_null col.
Proof.
  destruct (tally_from col [] (NoDup_nil _) (Forall_nil _))
    as [_ [_ [_ Hsum]]].
  rewrite (Permutation_list_sum
             (Permutation_map snd (value_counts_perm String.eqb col))).
  exact Hsum.
Qed.

(** A ranking lists every value of the column once, with the number of rows
    that hold it, largest count first; nulls are left out, so the counts
    add up to the number of non-null rows. *)
Theorem value_counts_ranking (col : list (option string)) :
  NoDup (map fst (value_counts String.eqb col))
  /\ (forall k n, In (k, n) (value_counts String.eqb col)
                  <-> n = occurrences k col /\ 0 < n)
  /\ StronglySorted (fun a b => snd b <= snd a) (value_counts String.eqb col)
  /\ list_sum (map snd (value_counts String.eqb col)) = non_null col
  /\ List.length (top_ten (value_counts String.eqb col)) <= 10.
Proof.
  destruct (tally_from col [] (NoDup_nil _) (Forall_nil _))
    as [Hnd [Hpos [Hcount Hsum]]].
  fold (tally String.eqb col) in Hnd, Hpos, Hcount, Hsum.
  pose proof (value_counts_perm String.eqb col) as Hperm.
  split; [|split; [|split; [|split]]].
  - apply (Permutation_NoDup (Permutation_sym (Permutation_map fst Hperm)) Hnd).
  - intros k n. split.
    + intros H. apply (Permutation_in _ Hperm) in H.
      apply (count_of_In _ k n Hnd Hpos) in H as [-> Hp].
      rewrite Hcount in *. auto.
    + intros [Hn Hp]. apply (Permutation_in _ (Permutation_sym Hperm)).
      apply (count_of_In _ k n Hnd Hpos). split; [|exact Hp].
      now rewrite Hcount.
  - apply value_counts_sorted.
  - apply value_counts_sum.
  - unfold top_ten. apply firstn_le_length.
Qed.

(** The history ranking of [main] accounts for every half-duplex
    connection: its counts add up to [halfduplex_lines], so the printed
    shares of all its entries add up to the whole. *)
Theorem hist_types_cover_candidates (df0 : DataFrame) :
  exists f : Funnel,
    run_funnel df0 = Ok f
    /\ list_sum (map snd (hist_types (candidates f))) = halfduplex_lines f
    /\ non_null (map history (candidates f)) = halfduplex_lines f.
Proof.
  eexists; split; [apply run_funnel_ok|]. cbn [candidates halfduplex_lines].
  assert (Hnn : non_null (map history (half_duplex_set df0))
                = List.length (half_duplex_set df0)).
  { assert (Hall : forall r, In r (half_duplex_set df0) ->
                             exists h, history r = Some h)
      by apply candidate_history.
    induction (half_duplex_set df0) as [|r l IH]; [reflexivity|].
    unfold non_null in *. simpl.
    destruct (Hall r (or_introl eq_refl)) as [h ->]. simpl.
    rewrite IH; [reflexivity|]. intros r' Hr'. apply Hall. now right. }
  split; [|exact Hnn].
  unfold hist_types. now rewrite value_counts_sum.
Qed.

(** ** Printing a pair key *)

(** For addresses without a hyphen the pair key reads back as the two
    addresses: the line of the ranking shows the smaller address, then the
    larger one. *)
Theorem printed_pair_reads_key_back (r : ConnRow) (a b : string) :
  id_orig_h r = Some a -> id_resp_h r = Some b ->
  PyStr.mem "-" a = false -> PyStr.mem "-" b = false ->
  exists key,
    ip_pair r = Ok key
    /\ printed_pair key = Ok (if (a <? b)%string then (a, b) else (b, a))
    /\ count_char "-" key = 1.
Proof.
  intros Ho Hr Ha Hb. unfold ip_pair. rewrite Ho, Hr.
  assert (Hkey : forall x y, PyStr.mem "-" x = false -> PyStr.mem "-" y = false ->
            PyStr.split_on "-" (x ++ "-" ++ y)%string = [x; y]).
  { intros x y Hx Hy.
    change (x ++ "-" ++ y)%string with (x ++ String "-" y)%string.
    now rewrite (split_on_app _ _ _ Hx), (split_on_none _ _ Hy). }
  assert (Hcount : forall x y, PyStr.mem "-" x = false -> PyStr.mem "-" y = false ->
            count_char "-" (x ++ "-" ++ y)%string = 1).
  { intros x y Hx Hy.
    pose proof (split_on_length "-" (x ++ "-" ++ y)%string) as Hl.
    rewrite (Hkey x y Hx Hy) in Hl. cbn [List.length] in Hl. lia. }
  eexists; split; [reflexivity|].
  unfold printed_pair.
  destruct (a <? b)%string.
  - now rewrite (Hkey a b Ha Hb), (Hcount a b Ha Hb).
  - now rewrite (Hkey b a Hb Ha), (Hcount b a Hb Ha).
Qed.

Lemma printed_pair_reads_key_back_witness :
  exists key,
    ip_pair (reverse_tcp_row (Some "shadf")) = Ok key
    /\ printed_pair key
       = Ok (if ("10.0.0.2" <? "10.0.0.1")%string
             then ("10.0.0.2", "10.0.0.1") else ("10.0.0.1", "10.0.0.2"))
    /\ count_char "-" key = 1.
Proof.
  apply (printed_pair_reads_key_back (reverse_tcp_row (Some "shadf"))
           "10.0.0.2" "10.0.0.1"); reflexivity.
Defined.
